(** * Live-activity bridge: registry and dispatch protocol

    A shallow embedding of the two layers of react-native-ios-activitykit:

    - the native dispatch bridge [ExpoLiveActivitiesModule] (Swift), which owns
      the process-wide registry [activeActivities] and routes create, update
      and end requests to the typed host activities;
    - the public facade (TypeScript, [index.ts]), which gates every call on
      [isSupported], validates identifiers and delegates to the bridge.

    Swift's throwing functions over the mutable registry are written in a
    small state-and-error monad.  The host capability (ActivityKit) is an
    external collaborator: its answers are inputs of the model ([Host],
    [Ambient]), and the fire-and-forget [Task { ... }] blocks the bridge
    launches are recorded in the order they are launched. *)

From Stdlib Require Import ZArith String Ascii List Lia.
From stdpp Require Import gmap strings list fin_maps.

Local Open Scope string_scope.

(** ** Values crossing the bridge *)

(** A JavaScript number, as far as the bridge can tell numbers apart: an
    integral value, a finite non-integral value [m / 2^e], or NaN. *)
Inductive Number :=
| NumInt (z : Z)
| NumFrac (m : Z) (e : positive)
| NumNaN.

(** A value of Swift's [Any] found in a [[String: Any]] payload. *)
Inductive AnyValue :=
| AnyString (s : string)
| AnyNumber (n : Number)
| AnyBool (b : bool)
| AnyNull
| AnyOpaque.

(** The payload type of the bridge, [[String: Any]]. *)
Abbreviation Dict := (gmap string AnyValue).

(** Swift's [Int] is 64 bits wide. *)
Definition Int_min : Z := - 2 ^ 63.
Definition Int_max : Z := 2 ^ 63 - 1.

(** [v as? String] *)
Definition asString (v : AnyValue) : option string :=
  match v with AnyString s => Some s | _ => None end.

(** [v as? Int]: an integral number that fits the machine integer. *)
Definition asInt (v : AnyValue) : option Z :=
  match v with
  | AnyNumber (NumInt z) =>
      if ((Int_min <=? z) && (z <=? Int_max))%Z then Some z else None
  | _ => None
  end.

(** [v as? Double]: every number is a double on the JavaScript side. *)
Definition asDouble (v : AnyValue) : option Number :=
  match v with AnyNumber n => Some n | _ => None end.

(** [dict[key] as? T] *)
Definition field {T} (cast : AnyValue → option T) (dict : Dict) (key : string)
  : option T :=
  dict !! key ≫= cast.

(** ** The built-in activity kinds *)

Module CounterActivityAttributes.
Record ContentState := { value : Z; status : option string }.
Record t := { title : string; color : option string }.
End CounterActivityAttributes.

Module StatusActivityAttributes.
Record ContentState :=
  { status : string; progress : option Z;
    details : option string; timestamp : option Number }.
Record t := { identifier : string; title : string }.
End StatusActivityAttributes.

Module ProgressActivityAttributes.
Record ContentState :=
  { current : Z; description : option string; percentage : option Z }.
Record t := { title : string; total : Z; unit : option string }.
End ProgressActivityAttributes.

(** The live handle [Activity<Attributes>] returned by the host: the
    immutable attributes and the content snapshot it was requested with. *)
Record Activity (A C : Type) := mkActivity { attributes : A; contentState : C }.
Arguments mkActivity {A C} _ _.
Arguments attributes {A C} _.
Arguments contentState {A C} _.

Abbreviation CounterActivity :=
  (Activity CounterActivityAttributes.t CounterActivityAttributes.ContentState).
Abbreviation StatusActivity :=
  (Activity StatusActivityAttributes.t StatusActivityAttributes.ContentState).
Abbreviation ProgressActivity :=
  (Activity ProgressActivityAttributes.t ProgressActivityAttributes.ContentState).

(** What a registry slot of type [Any] can hold: one of the three typed
    handles, or any other object. *)
Inductive AnyObject :=
| CounterRef (a : CounterActivity)
| StatusRef (a : StatusActivity)
| ProgressRef (a : ProgressActivity)
| ForeignRef (tag : nat).

(** [activity as? Activity<CounterActivityAttributes>] and its siblings. *)
Definition asCounterActivity (o : AnyObject) : option CounterActivity :=
  match o with CounterRef a => Some a | _ => None end.
Definition asStatusActivity (o : AnyObject) : option StatusActivity :=
  match o with StatusRef a => Some a | _ => None end.
Definition asProgressActivity (o : AnyObject) : option ProgressActivity :=
  match o with ProgressRef a => Some a | _ => None end.

(** ** Errors *)

Inductive LiveActivityError :=
| unsupported
| unknownType (type : string)
| invalidAttributes (message : string)
| invalidContent (message : string)
| notFound (id : string)
| startFailed (message : string)
| updateFailed (message : string)
| endFailed (message : string).

Definition errorDescription (e : LiveActivityError) : string :=
  match e with
  | unsupported => "Live Activities require iOS 16.1 or later"
  | unknownType type => "Unknown activity type: " ++ type
  | invalidAttributes message => "Invalid attributes: " ++ message
  | invalidContent message => "Invalid content: " ++ message
  | notFound id => "Activity not found: " ++ id
  | startFailed message => "Failed to start activity: " ++ message
  | updateFailed message => "Failed to update activity: " ++ message
  | endFailed message => "Failed to end activity: " ++ message
  end.

(** Anything a Swift [throws] function of the bridge can raise: one of its
    own errors, or the error of a rejected host request. *)
Inductive SwiftError :=
| Thrown (e : LiveActivityError)
| HostThrown (message : string).

Definition localizedDescription (e : SwiftError) : string :=
  match e with
  | Thrown e => errorDescription e
  | HostThrown message => message
  end.

(** ** Host, ambient inputs and module state *)

Inductive ActivityUIDismissalPolicy :=
| immediate
| after (secondsFromNow : Z)
| default.

(** The fire-and-forget tasks the bridge hands to the host. *)
Inductive HostTask :=
| UpdateCounter (a : CounterActivity)
    (content : CounterActivityAttributes.ContentState)
| UpdateStatus (a : StatusActivity)
    (content : StatusActivityAttributes.ContentState)
| UpdateProgress (a : ProgressActivity)
    (content : ProgressActivityAttributes.ContentState)
| EndCounter (a : CounterActivity) (p : ActivityUIDismissalPolicy)
| EndStatus (a : StatusActivity) (p : ActivityUIDismissalPolicy)
| EndProgress (a : ProgressActivity) (p : ActivityUIDismissalPolicy)
| EndNothing.

(** The device the program runs on. [probe_throws] says that the call of
    the native [isSupported] through the bridge raises. *)
Record Host := mkHost
  { platform_os : string;
    os_version : nat * nat;
    probe_throws : bool }.

(** The availability test [#available] for iOS [major.minor] and later. *)
Definition available (h : Host) (major minor : nat) : bool :=
  let '(M, m) := os_version h in
  (major <? M)%nat || ((M =? major)%nat && (minor <=? m)%nat).

(** A UUID, in the five groups of its textual form. *)
Record UUID := mkUUID
  { time_low : N; time_mid : N; time_hi : N; clock_seq : N; node : N }.

Definition hexDigit (d : N) : ascii :=
  match d with
  | 0 => "0" | 1 => "1" | 2 => "2" | 3 => "3" | 4 => "4" | 5 => "5"
  | 6 => "6" | 7 => "7" | 8 => "8" | 9 => "9" | 10 => "A" | 11 => "B"
  | 12 => "C" | 13 => "D" | 14 => "E" | _ => "F"
  end%N%char.

Fixpoint hexFixed (width : nat) (v : N) : string :=
  match width with
  | O => ""
  | S w => String (hexDigit ((v / 16 ^ N.of_nat w) mod 16)) (hexFixed w v)
  end.

(** [UUID().uuidString]: 8-4-4-4-12 upper-case hexadecimal digits. *)
Definition uuidString (u : UUID) : string :=
  hexFixed 8 (time_low u) ++ "-" ++ hexFixed 4 (time_mid u) ++ "-" ++
  hexFixed 4 (time_hi u) ++ "-" ++ hexFixed 4 (clock_seq u) ++ "-" ++
  hexFixed 12 (node u).

(** What the environment supplies to one [startActivity] call: the fresh
    UUID, the wall clock, and the host's answer to [Activity.request]
    ([Some message] when the host rejects the request). *)
Record Ambient := mkAmbient
  { fresh_uuid : UUID;
    now : Number;
    request_rejected : option string }.

(** The module's mutable state: the registry, and the tasks launched so
    far (latest first). *)
Record ModuleState := mkState
  { activeActivities : gmap string AnyObject;
    launched : list HostTask }.

Definition initial : ModuleState :=
  {| activeActivities := ∅; launched := [] |}.

(** ** A state-and-error monad for Swift's throwing methods *)

Inductive Result (E A : Type) :=
| Ok (a : A)
| Err (e : E).
Arguments Ok {E A} _.
Arguments Err {E A} _.

(** A computation over the module state that returns or throws; a throw
    keeps the state reached so far. *)
Definition M (E A : Type) : Type := ModuleState → Result E A * ModuleState.

Definition ret {E A} (a : A) : M E A := λ st, (Ok a, st).
Definition throw {E A} (e : E) : M E A := λ st, (Err e, st).
Definition bind {E A B} (c : M E A) (k : A → M E B) : M E B :=
  λ st, match c st with
        | (Ok a, st') => k a st'
        | (Err e, st') => (Err e, st')
        end.
(** [try expr] on a function that throws without touching the state. *)
Definition try {E A} (r : Result E A) : M E A := λ st, (r, st).
(** [do { body } catch { handler error }] *)
Definition do_catch {E E' A} (body : M E A) (handler : E → M E' A) : M E' A :=
  λ st, match body st with
        | (Ok a, st') => (Ok a, st')
        | (Err e, st') => handler e st'
        end.

Declare Scope swift_scope.
Delimit Scope swift_scope with swift.
Notation "'let!' x := c 'in' k" := (bind c (λ x, k))
  (at level 10, x name, c at level 100, k at level 200) : swift_scope.
Notation "c ;; k" := (bind c (λ _, k))
  (at level 100, k at level 200, right associativity) : swift_scope.

(** ** The native module *)

Record ActivityInfo := mkInfo
  { activityId : string; activityType : string; startTime : Number }.

(** [Character.lowercased] on the ASCII range. *)
Definition lowercase_ascii (c : ascii) : ascii :=
  let n := nat_of_ascii c in
  if ((65 <=? n) && (n <=? 90))%nat then ascii_of_nat (n + 32) else c.

Fixpoint lowercased (s : string) : string :=
  match s with
  | EmptyString => EmptyString
  | String c rest => String (lowercase_ascii c) (lowercased rest)
  end.

Module ExpoLiveActivitiesModule.
Local Open Scope swift_scope.

(** [activeActivities[activityId] = activity] *)
Definition store {E} (activityId : string) (activity : AnyObject) : M E unit :=
  λ st, (Ok tt, {| activeActivities := <[activityId := activity]> (activeActivities st);
                   launched := launched st |}).

(** [activeActivities.removeValue(forKey: activityId)] *)
Definition removeValue {E} (activityId : string) : M E unit :=
  λ st, (Ok tt, {| activeActivities := delete activityId (activeActivities st);
                   launched := launched st |}).

(** [Task { await ... }]: the host request is handed over, not awaited. *)
Definition Task {E} (t : HostTask) : M E unit :=
  λ st, (Ok tt, {| activeActivities := activeActivities st;
                   launched := t :: launched st |}).

(** [Activity<Attributes>.request(attributes:contentState:pushType:)] *)
Definition request {A C} (amb : Ambient) (attrs : A) (content : C)
  : Result SwiftError (Activity A C) :=
  match request_rejected amb with
  | Some message => Err (HostThrown message)
  | None => Ok (mkActivity attrs content)
  end.

(** *** CounterActivity helpers *)

Definition parseCounterAttributes (dict : Dict)
  : Result SwiftError CounterActivityAttributes.t :=
  match field asString dict "title" with
  | Some title =>
      let color := field asString dict "color" in
      Ok {| CounterActivityAttributes.title := title;
            CounterActivityAttributes.color := color |}
  | None =>
      Err (Thrown (invalidAttributes "Missing 'title' for CounterActivity"))
  end.

Definition parseCounterContent (dict : Dict)
  : Result SwiftError CounterActivityAttributes.ContentState :=
  match field asInt dict "value" with
  | Some value =>
      let status := field asString dict "status" in
      Ok {| CounterActivityAttributes.value := value;
            CounterActivityAttributes.status := status |}
  | None =>
      Err (Thrown (invalidContent "Missing 'value' for CounterActivity"))
  end.

Definition createCounterActivity (amb : Ambient) (activityId : string)
    (attributes contentState : Dict) : M SwiftError unit :=
  let! attrs := try (parseCounterAttributes attributes) in
  let! content := try (parseCounterContent contentState) in
  let! activity := try (request amb attrs content) in
  store activityId (CounterRef activity).

(** *** StatusActivity helpers *)

Definition parseStatusAttributes (dict : Dict)
  : Result SwiftError StatusActivityAttributes.t :=
  match field asString dict "identifier", field asString dict "title" with
  | Some identifier, Some title =>
      Ok {| StatusActivityAttributes.identifier := identifier;
            StatusActivityAttributes.title := title |}
  | _, _ =>
      Err (Thrown (invalidAttributes
                     "Missing 'identifier' or 'title' for StatusActivity"))
  end.

Definition parseStatusContent (dict : Dict)
  : Result SwiftError StatusActivityAttributes.ContentState :=
  match field asString dict "status" with
  | Some status =>
      let progress := field asInt dict "progress" in
      let details := field asString dict "details" in
      let timestamp := field asDouble dict "timestamp" in
      Ok {| StatusActivityAttributes.status := status;
            StatusActivityAttributes.progress := progress;
            StatusActivityAttributes.details := details;
            StatusActivityAttributes.timestamp := timestamp |}
  | None =>
      Err (Thrown (invalidContent "Missing 'status' for StatusActivity"))
  end.

Definition createStatusActivity (amb : Ambient) (activityId : string)
    (attributes contentState : Dict) : M SwiftError unit :=
  let! attrs := try (parseStatusAttributes attributes) in
  let! content := try (parseStatusContent contentState) in
  let! activity := try (request amb attrs content) in
  store activityId (StatusRef activity).

(** *** ProgressActivity helpers *)

Definition parseProgressAttributes (dict : Dict)
  : Result SwiftError ProgressActivityAttributes.t :=
  match field asString dict "title", field asInt dict "total" with
  | Some title, Some total =>
      let unit := field asString dict "unit" in
      Ok {| ProgressActivityAttributes.title := title;
            ProgressActivityAttributes.total := total;
            ProgressActivityAttributes.unit := unit |}
  | _, _ =>
      Err (Thrown (invalidAttributes
                     "Missing 'title' or 'total' for ProgressActivity"))
  end.

Definition parseProgressContent (dict : Dict)
  : Result SwiftError ProgressActivityAttributes.ContentState :=
  match field asInt dict "current" with
  | Some current =>
      let description := field asString dict "description" in
      let percentage := field asInt dict "percentage" in
      Ok {| ProgressActivityAttributes.current := current;
            ProgressActivityAttributes.description := description;
            ProgressActivityAttributes.percentage := percentage |}
  | None =>
      Err (Thrown (invalidContent "Missing 'current' for ProgressActivity"))
  end.

Definition createProgressActivity (amb : Ambient) (activityId : string)
    (attributes contentState : Dict) : M SwiftError unit :=
  let! attrs := try (parseProgressAttributes attributes) in
  let! content := try (parseProgressContent contentState) in
  let! activity := try (request amb attrs content) in
  store activityId (ProgressRef activity).

(** *** Dispatch *)

(** The [switch activityType] over the registered kind names. *)
Definition createActivity (amb : Ambient) (activityId activityType : string)
    (attributes contentState : Dict) : M SwiftError unit :=
  if decide (activityType = "CounterActivity") then
    createCounterActivity amb activityId attributes contentState
  else if decide (activityType = "StatusActivity") then
    createStatusActivity amb activityId attributes contentState
  else if decide (activityType = "ProgressActivity") then
    createProgressActivity amb activityId attributes contentState
  else
    throw (Thrown (unknownType activityType)).

Definition updateExistingActivity (activityId : string) (contentState : Dict)
  : M SwiftError unit :=
  λ st,
    match activeActivities st !! activityId with
    | None => throw (Thrown (notFound activityId)) st
    | Some activity =>
        match asCounterActivity activity with
        | Some counterActivity =>
            (let! content := try (parseCounterContent contentState) in
             Task (UpdateCounter counterActivity content)) st
        | None =>
        match asStatusActivity activity with
        | Some statusActivity =>
            (let! content := try (parseStatusContent contentState) in
             Task (UpdateStatus statusActivity content)) st
        | None =>
        match asProgressActivity activity with
        | Some progressActivity =>
            (let! content := try (parseProgressContent contentState) in
             Task (UpdateProgress progressActivity content)) st
        | None =>
            throw (Thrown (unknownType
                             ("Unknown activity type for ID: " ++ activityId))) st
        end end end
    end.

(** The body of the task launched by [endExistingActivity]: the same
    ordered trial, with no branch for an object of another type. *)
Definition endTask (activity : AnyObject)
    (dismissalPolicy : ActivityUIDismissalPolicy) : HostTask :=
  match asCounterActivity activity with
  | Some counterActivity => EndCounter counterActivity dismissalPolicy
  | None =>
  match asStatusActivity activity with
  | Some statusActivity => EndStatus statusActivity dismissalPolicy
  | None =>
  match asProgressActivity activity with
  | Some progressActivity => EndProgress progressActivity dismissalPolicy
  | None => EndNothing
  end end end.

Definition endExistingActivity (activityId : string)
    (dismissalPolicy : ActivityUIDismissalPolicy) : M SwiftError unit :=
  λ st,
    match activeActivities st !! activityId with
    | None => throw (Thrown (notFound activityId)) st
    | Some activity =>
        (Task (endTask activity dismissalPolicy) ;;
         removeValue activityId) st
    end.

Definition parseDismissalPolicy (h : Host) (policy : string)
  : ActivityUIDismissalPolicy :=
  let p := lowercased policy in
  if decide (p = "immediate") then immediate
  else if decide (p = "after") then
    (if available h 16 2 then after 3 else default)
  else default.

(** *** The functions exported to JavaScript *)

Definition isSupported (h : Host) : bool :=
  if available h 16 1 then true else false.

Definition startActivity (h : Host) (amb : Ambient) (activityType : string)
    (attributes contentState : Dict) : M LiveActivityError ActivityInfo :=
  if negb (available h 16 1) then throw unsupported
  else
    do_catch
      (let activityId := uuidString (fresh_uuid amb) in
       let startTime := now amb in
       createActivity amb activityId activityType attributes contentState ;;
       ret {| activityId := activityId;
              activityType := activityType;
              startTime := startTime |})
      (λ error, throw (startFailed (localizedDescription error))).

Definition updateActivity (h : Host) (activityId : string)
    (contentState : Dict) : M LiveActivityError unit :=
  if negb (available h 16 1) then throw unsupported
  else
    do_catch (updateExistingActivity activityId contentState)
             (λ error, throw (updateFailed (localizedDescription error))).

Definition endActivity (h : Host) (activityId dismissalPolicy : string)
  : M LiveActivityError unit :=
  if negb (available h 16 1) then throw unsupported
  else
    do_catch
      (let policy := parseDismissalPolicy h dismissalPolicy in
       endExistingActivity activityId policy)
      (λ error, throw (endFailed (localizedDescription error))).

(** [Array(self.activeActivities.keys)], in the dictionary's own order. *)
Definition getAllActivities (h : Host) : M LiveActivityError (list string) :=
  if negb (available h 16 1) then ret []
  else λ st, (Ok (map fst (map_to_list (activeActivities st))), st).

End ExpoLiveActivitiesModule.

(** ** The public facade *)

(** A JavaScript value a caller can pass to the facade. The fields of an
    object are kept in the form in which they reach the native side. *)
Inductive JsValue :=
| JsUndefined
| JsNull
| JsBool (b : bool)
| JsNumber (n : Number)
| JsString (s : string)
| JsObject (fields : Dict).

(** JavaScript truthiness, as tested by [!v] and [v || w]. *)
Definition truthy (v : JsValue) : bool :=
  match v with
  | JsUndefined | JsNull => false
  | JsBool b => b
  | JsNumber (NumInt z) => negb (z =? 0)%Z
  | JsNumber (NumFrac m _) => negb (m =? 0)%Z
  | JsNumber NumNaN => false
  | JsString s => negb (String.eqb s "")
  | JsObject _ => true
  end.

(** [v || w] *)
Definition js_or (v w : JsValue) : JsValue := if truthy v then v else w.

(** [typeof v === 'string'] *)
Definition typeof_string (v : JsValue) : bool :=
  match v with JsString _ => true | _ => false end.

(** What a call of a native function can reject with: an error thrown by
    the module, or the bridge's refusal of an argument it cannot convert
    to the declared Swift type. *)
Inductive BridgeException :=
| NativeError (e : LiveActivityError)
| ArgumentCastException.

(** A JavaScript [Error]: [new Error(message)], or [new Error] of a
    template string that embeds the caught error. *)
Inductive JsError :=
| Error (message : string)
| ErrorOfNative (prefix : string) (cause : BridgeException)
| ErrorOfError (prefix : string) (cause : JsError).

Definition unsupported_message : string :=
  "Live Activities are not supported on this device (requires iOS 16.1+)".

(** Argument conversion at the bridge. *)
Definition toString (v : JsValue) : option string :=
  match v with JsString s => Some s | _ => None end.
Definition toDict (v : JsValue) : option Dict :=
  match v with JsObject fields => Some fields | _ => None end.

(** A call of a native function from JavaScript. *)
Definition native {A} (c : M LiveActivityError A) : M BridgeException A :=
  do_catch c (λ e, throw (NativeError e)).

(** The module constant of [index.ts]: the native module is required on
    iOS only. *)
Definition module_present (h : Host) : bool :=
  if decide (platform_os h = "ios") then true else false.

Definition isSupported (h : Host) : bool :=
  if negb (if decide (platform_os h = "ios") then true else false) then false
  else if negb (module_present h) then false
  else if probe_throws h then false
  else ExpoLiveActivitiesModule.isSupported h.

Local Open Scope swift_scope.

Definition startActivity (h : Host) (amb : Ambient)
    (activityType attributes contentState : JsValue) : M JsError ActivityInfo :=
  if negb (isSupported h) then throw (Error unsupported_message)
  else if negb (truthy activityType) || negb (typeof_string activityType) then
    throw (Error "activityType must be a non-empty string")
  else
    do_catch
      (match toString activityType,
             toDict (js_or attributes (JsObject ∅)),
             toDict (js_or contentState (JsObject ∅)) with
       | Some type, Some attrs, Some content =>
           native (ExpoLiveActivitiesModule.startActivity h amb type attrs content)
       | _, _, _ => throw ArgumentCastException
       end)
      (λ error, throw (ErrorOfNative "Failed to start activity: " error)).

Definition updateActivity (h : Host) (activityId contentState : JsValue)
  : M JsError unit :=
  if negb (isSupported h) then throw (Error unsupported_message)
  else if negb (truthy activityId) || negb (typeof_string activityId) then
    throw (Error "activityId must be a non-empty string")
  else
    do_catch
      (match toString activityId,
             toDict (js_or contentState (JsObject ∅)) with
       | Some id, Some content =>
           native (ExpoLiveActivitiesModule.updateActivity h id content)
       | _, _ => throw ArgumentCastException
       end)
      (λ error, throw (ErrorOfNative "Failed to update activity: " error)).

(** The default parameter [dismissalPolicy = 'default']: the argument is
    [None] when the caller omits it. *)
Definition or_default (dismissalPolicy : option string) : string :=
  match dismissalPolicy with Some p => p | None => "default" end.

Definition endActivity (h : Host) (activityId : JsValue)
    (dismissalPolicy : option string) : M JsError unit :=
  let dismissalPolicy := or_default dismissalPolicy in
  if negb (isSupported h) then throw (Error unsupported_message)
  else if negb (truthy activityId) || negb (typeof_string activityId) then
    throw (Error "activityId must be a non-empty string")
  else
    do_catch
      (match toString activityId with
       | Some id =>
           native (ExpoLiveActivitiesModule.endActivity h id dismissalPolicy)
       | None => throw ArgumentCastException
       end)
      (λ error, throw (ErrorOfNative "Failed to end activity: " error)).

Definition getAllActivities (h : Host) : M JsError (list string) :=
  if negb (isSupported h) then ret []
  else
    do_catch (native (ExpoLiveActivitiesModule.getAllActivities h))
             (λ error, ret []).

(** [Promise.all] over calls that are started one after the other: every
    call runs, and the aggregate rejects with the first rejection. *)
Fixpoint Promise_all {E} (calls : list (M E unit)) : M E unit :=
  match calls with
  | [] => ret tt
  | call :: rest =>
      λ st, match call st with
            | (r, st') =>
                match Promise_all rest st' with
                | (rs, st'') =>
                    (match r with Ok _ => rs | Err e => Err e end, st'')
                end
            end
  end.

Definition endAllActivities (h : Host) (dismissalPolicy : option string)
  : M JsError unit :=
  let dismissalPolicy := or_default dismissalPolicy in
  if negb (isSupported h) then ret tt
  else
    do_catch
      (let! activityIds := getAllActivities h in
       Promise_all
         (map (λ id, endActivity h (JsString id) (Some dismissalPolicy))
              activityIds))
      (λ error, throw (ErrorOfError "Failed to end all activities: " error)).

(** ** Calls, histories and what they record *)

(** One call of the public API. *)
Inductive Call :=
| Start (amb : Ambient) (activityType attributes contentState : JsValue)
| Update (activityId contentState : JsValue)
| End (activityId : JsValue) (dismissalPolicy : option string)
| GetAll
| EndAll (dismissalPolicy : option string).

Inductive Outcome :=
| Started (info : ActivityInfo)
| Done
| Ids (ids : list string).

Definition perform (h : Host) (c : Call) : M JsError Outcome :=
  match c with
  | Start amb activityType attributes contentState =>
      let! info := startActivity h amb activityType attributes contentState in
      ret (Started info)
  | Update activityId contentState =>
      updateActivity h activityId contentState ;; ret Done
  | End activityId dismissalPolicy =>
      endActivity h activityId dismissalPolicy ;; ret Done
  | GetAll =>
      let! ids := getAllActivities h in ret (Ids ids)
  | EndAll dismissalPolicy =>
      endAllActivities h dismissalPolicy ;; ret Done
  end.

(** The calls made since the process started, latest first, each with its
    result, and the module state they lead to. *)
Inductive history (h : Host)
  : list (Call * Result JsError Outcome) → ModuleState → Prop :=
| history_nil : history h [] initial
| history_cons log st c :
    history h log st →
    history h ((c, fst (perform h c st)) :: log) (snd (perform h c st)).

Definition reachable (h : Host) (st : ModuleState) : Prop :=
  ∃ log, history h log st.

(** The ids that are live after a history: started, and not ended since. *)
Fixpoint live (log : list (Call * Result JsError Outcome)) : gset string :=
  match log with
  | [] => ∅
  | (_, Ok (Started info)) :: log => {[ activityId info ]} ∪ live log
  | (End (JsString id) _, _) :: log => live log ∖ {[ id ]}
  | (EndAll _, _) :: log => ∅
  | _ :: log => live log
  end.

(** The kind name each id was last created with. *)
Fixpoint created_as (log : list (Call * Result JsError Outcome))
  : gmap string string :=
  match log with
  | [] => ∅
  | (_, Ok (Started info)) :: log =>
      <[ activityId info := activityType info ]> (created_as log)
  | _ :: log => created_as log
  end.

(** ** The kind catalog *)

Inductive ActivityKind := Counter | Status | Progress.

Definition kindName (k : ActivityKind) : string :=
  match k with
  | Counter => "CounterActivity"
  | Status => "StatusActivity"
  | Progress => "ProgressActivity"
  end.

(** The names the [switch] of [createActivity] knows. *)
Definition catalog : list string := map kindName [Counter; Status; Progress].

(** The kind of a typed handle. *)
Definition typed_as (k : ActivityKind) (o : AnyObject) : Prop :=
  match k with
  | Counter => is_Some (asCounterActivity o)
  | Status => is_Some (asStatusActivity o)
  | Progress => is_Some (asProgressActivity o)
  end.

(** The kind a host task is addressed to. *)
Definition taskKind (t : HostTask) : option ActivityKind :=
  match t with
  | UpdateCounter _ _ | EndCounter _ _ => Some Counter
  | UpdateStatus _ _ | EndStatus _ _ => Some Status
  | UpdateProgress _ _ | EndProgress _ _ => Some Progress
  | EndNothing => None
  end.

Inductive FieldType := TString | TInt | TDouble.

Definition has_type (t : FieldType) (v : AnyValue) : bool :=
  match t with
  | TString => bool_decide (is_Some (asString v))
  | TInt => bool_decide (is_Some (asInt v))
  | TDouble => bool_decide (is_Some (asDouble v))
  end.

(** The fields the [guard let] of each content parser insists on. *)
Definition required_content (k : ActivityKind) : list (string * FieldType) :=
  match k with
  | Counter => [("value", TInt)]
  | Status => [("status", TString)]
  | Progress => [("current", TInt)]
  end.

Definition has_fields (req : list (string * FieldType)) (dict : Dict) : bool :=
  forallb (λ '(key, t), match dict !! key with
                        | Some v => has_type t v
                        | None => false
                        end) req.

(** The attributes a typed handle carries, as the payload they came from
    would list its required fields. *)
Definition handle_title (o : AnyObject) : option string :=
  match o with
  | CounterRef a => Some (CounterActivityAttributes.title (attributes a))
  | StatusRef a => Some (StatusActivityAttributes.title (attributes a))
  | ProgressRef a => Some (ProgressActivityAttributes.title (attributes a))
  | ForeignRef _ => None
  end.

(** ** Sample hosts and payloads *)

Definition iPhone_16_1 : Host :=
  {| platform_os := "ios"; os_version := (16, 1)%nat; probe_throws := false |}.
Definition iPhone_17_0 : Host :=
  {| platform_os := "ios"; os_version := (17, 0)%nat; probe_throws := false |}.
Definition android : Host :=
  {| platform_os := "android"; os_version := (14, 0)%nat; probe_throws := false |}.

Definition ambient_1 : Ambient :=
  {| fresh_uuid := mkUUID 1 2 3 4 5;
     now := NumInt 1700000000;
     request_rejected := None |}.
Definition ambient_2 : Ambient :=
  {| fresh_uuid := mkUUID 6 7 8 9 10;
     now := NumInt 1700000060;
     request_rejected := None |}.

Definition obj (fields : list (string * AnyValue)) : JsValue :=
  JsObject (list_to_map fields).
Definition int (z : Z) : AnyValue := AnyNumber (NumInt z).
Definition str (s : string) : AnyValue := AnyString s.

(** The state after [startActivity("CounterActivity", {title:"T"}, {value:10})]
    on a fresh process. *)
Definition one_counter : ModuleState :=
  snd (startActivity iPhone_16_1 ambient_1 (JsString "CounterActivity")
         (obj [("title", str "T")]) (obj [("value", int 10)]) initial).

(** * Properties *)

(** ** Basic facts *)

Ltac unfold_monad :=
  unfold native in *;
  unfold bind, ret, throw, try, do_catch,
    ExpoLiveActivitiesModule.store, ExpoLiveActivitiesModule.removeValue,
    ExpoLiveActivitiesModule.Task in *.

Lemma uuidString_nonempty (u : UUID) : uuidString u ≠ "".
Proof. unfold uuidString. cbn [hexFixed append]. discriminate. Qed.

Lemma truthy_JsString (s : string) : truthy (JsString s) = true ↔ s ≠ "".
Proof.
  cbn [truthy]. destruct (String.eqb_spec s ""); cbn [negb]; split;
    intros; congruence.
Qed.

Lemma isSupported_true (h : Host) :
  isSupported h = true ↔
  platform_os h = "ios" ∧ probe_throws h = false ∧ available h 16 1 = true.
Proof.
  unfold isSupported, module_present, ExpoLiveActivitiesModule.isSupported.
  destruct (decide (platform_os h = "ios")), (probe_throws h),
    (available h 16 1); cbn [negb]; intuition congruence.
Qed.

Lemma isSupported_available (h : Host) :
  isSupported h = true → available h 16 1 = true.
Proof. intros H. apply isSupported_true in H. tauto. Qed.

(** A kind name outside the catalog falls through the [switch]. *)
Lemma createActivity_unknown amb id type attrs content st :
  type ∉ catalog →
  ExpoLiveActivitiesModule.createActivity amb id type attrs content st
  = (Err (Thrown (unknownType type)), st).
Proof.
  intros Hnot. unfold ExpoLiveActivitiesModule.createActivity.
  repeat case_decide; subst;
    try (exfalso; apply Hnot; unfold catalog; cbn [map kindName]; set_solver).
  reflexivity.
Qed.

(** What a create can do: fail and leave the state alone, or store a typed
    handle of the requested kind under the given id. *)
Lemma createActivity_cases amb id type attrs content st r st' :
  ExpoLiveActivitiesModule.createActivity amb id type attrs content st = (r, st') →
  (∃ e, r = Err e ∧ st' = st) ∨
  (r = Ok tt ∧ ∃ k o, type = kindName k ∧ typed_as k o ∧
     activeActivities st' = <[id := o]> (activeActivities st) ∧
     launched st' = launched st).
Proof.
  unfold ExpoLiveActivitiesModule.createActivity,
    ExpoLiveActivitiesModule.createCounterActivity,
    ExpoLiveActivitiesModule.createStatusActivity,
    ExpoLiveActivitiesModule.createProgressActivity,
    ExpoLiveActivitiesModule.request.
  unfold_monad. intros H.
  repeat case_decide; try subst type.
  - destruct (ExpoLiveActivitiesModule.parseCounterAttributes attrs);
      [| left; inversion H; eauto].
    destruct (ExpoLiveActivitiesModule.parseCounterContent content);
      [| left; inversion H; eauto].
    destruct (request_rejected amb); [left; inversion H; eauto |].
    right. inversion H; subst; clear H. split; [done |].
    exists Counter. eexists. cbn. repeat split; eauto.
  - destruct (ExpoLiveActivitiesModule.parseStatusAttributes attrs);
      [| left; inversion H; eauto].
    destruct (ExpoLiveActivitiesModule.parseStatusContent content);
      [| left; inversion H; eauto].
    destruct (request_rejected amb); [left; inversion H; eauto |].
    right. inversion H; subst; clear H. split; [done |].
    exists Status. eexists. cbn. repeat split; eauto.
  - destruct (ExpoLiveActivitiesModule.parseProgressAttributes attrs);
      [| left; inversion H; eauto].
    destruct (ExpoLiveActivitiesModule.parseProgressContent content);
      [| left; inversion H; eauto].
    destruct (request_rejected amb); [left; inversion H; eauto |].
    right. inversion H; subst; clear H. split; [done |].
    exists Progress. eexists. cbn. repeat split; eauto.
  - left. inversion H; eauto.
Qed.

(** ** The facade on a supported host *)

Definition start_error (e : SwiftError) : JsError :=
  ErrorOfNative "Failed to start activity: "
    (NativeError (startFailed (localizedDescription e))).
Definition update_error (e : SwiftError) : JsError :=
  ErrorOfNative "Failed to update activity: "
    (NativeError (updateFailed (localizedDescription e))).
Definition end_error (e : SwiftError) : JsError :=
  ErrorOfNative "Failed to end activity: "
    (NativeError (endFailed (localizedDescription e))).

Lemma startActivity_supported h amb type attrs content st :
  isSupported h = true → type ≠ "" →
  startActivity h amb (JsString type) (JsObject attrs) (JsObject content) st =
  match ExpoLiveActivitiesModule.createActivity amb
          (uuidString (fresh_uuid amb)) type attrs content st with
  | (Ok _, st') =>
      (Ok {| activityId := uuidString (fresh_uuid amb);
             activityType := type;
             startTime := now amb |}, st')
  | (Err e, st') => (Err (start_error e), st')
  end.
Proof.
  intros Hs Hne. unfold startActivity. rewrite Hs.
  apply truthy_JsString in Hne. rewrite Hne. cbn.
  unfold ExpoLiveActivitiesModule.startActivity.
  rewrite (isSupported_available _ Hs). unfold_monad. cbn.
  destruct (ExpoLiveActivitiesModule.createActivity _ _ _ _ _ _) as [[[]|e] st'];
    reflexivity.
Qed.

Lemma updateActivity_supported h id content st :
  isSupported h = true → id ≠ "" →
  updateActivity h (JsString id) (JsObject content) st =
  match ExpoLiveActivitiesModule.updateExistingActivity id content st with
  | (Ok _, st') => (Ok tt, st')
  | (Err e, st') => (Err (update_error e), st')
  end.
Proof.
  intros Hs Hne. unfold updateActivity. rewrite Hs.
  apply truthy_JsString in Hne. rewrite Hne. cbn.
  unfold ExpoLiveActivitiesModule.updateActivity.
  rewrite (isSupported_available _ Hs). unfold_monad. cbn.
  destruct (ExpoLiveActivitiesModule.updateExistingActivity _ _ _) as [[[]|e] st'];
    reflexivity.
Qed.

Lemma endActivity_supported h id policy st :
  isSupported h = true → id ≠ "" →
  endActivity h (JsString id) policy st =
  match ExpoLiveActivitiesModule.endExistingActivity id
          (ExpoLiveActivitiesModule.parseDismissalPolicy h (or_default policy))
          st with
  | (Ok _, st') => (Ok tt, st')
  | (Err e, st') => (Err (end_error e), st')
  end.
Proof.
  intros Hs Hne. unfold endActivity. rewrite Hs.
  apply truthy_JsString in Hne. rewrite Hne. cbn.
  unfold ExpoLiveActivitiesModule.endActivity.
  rewrite (isSupported_available _ Hs). unfold_monad. cbn.
  destruct (ExpoLiveActivitiesModule.endExistingActivity _ _ _) as [[[]|e] st'];
    reflexivity.
Qed.

Lemma getAllActivities_supported h st :
  isSupported h = true →
  getAllActivities h st = (Ok (map fst (map_to_list (activeActivities st))), st).
Proof.
  intros Hs. unfold getAllActivities. rewrite Hs. cbn.
  unfold ExpoLiveActivitiesModule.getAllActivities.
  rewrite (isSupported_available _ Hs). reflexivity.
Qed.

Lemma getAllActivities_unsupported h st :
  isSupported h = false → getAllActivities h st = (Ok [], st).
Proof. intros Hs. unfold getAllActivities. rewrite Hs. reflexivity. Qed.

(** [getAllActivities] never raises and never changes the state. *)
Lemma getAllActivities_total h st :
  ∃ ids, getAllActivities h st = (Ok ids, st).
Proof.
  destruct (isSupported h) eqn:Hs.
  - eexists. by apply getAllActivities_supported.
  - eexists. by apply getAllActivities_unsupported.
Qed.

Lemma elem_of_keys (id : string) (m : gmap string AnyObject) :
  id ∈ map fst (map_to_list m) ↔ is_Some (m !! id).
Proof.
  rewrite list_elem_of_fmap. split.
  - intros [[k o] [-> Hin]]. apply elem_of_map_to_list in Hin. eauto.
  - intros [o Ho]. exists (id, o). split; [done |].
    by apply elem_of_map_to_list.
Qed.

(** ** What each bridge operation does to the state *)

Lemma updateExistingActivity_not_found id content st :
  activeActivities st !! id = None →
  ExpoLiveActivitiesModule.updateExistingActivity id content st
  = (Err (Thrown (notFound id)), st).
Proof.
  intros H. unfold ExpoLiveActivitiesModule.updateExistingActivity.
  by rewrite H.
Qed.

(** An update never touches the registry; it launches at most one task,
    and none when it throws. *)
Lemma updateExistingActivity_frame id content st r st' :
  ExpoLiveActivitiesModule.updateExistingActivity id content st = (r, st') →
  activeActivities st' = activeActivities st ∧
  ((∃ e, r = Err e ∧ st' = st) ∨
   (r = Ok tt ∧ ∃ t, launched st' = t :: launched st)).
Proof.
  unfold ExpoLiveActivitiesModule.updateExistingActivity. unfold_monad.
  destruct (activeActivities st !! id) as [o|];
    [| intros H; inversion H; subst; eauto].
  destruct o as [a|a|a|tag]; cbn;
    [ destruct (ExpoLiveActivitiesModule.parseCounterContent content)
    | destruct (ExpoLiveActivitiesModule.parseStatusContent content)
    | destruct (ExpoLiveActivitiesModule.parseProgressContent content)
    | ];
    intros H; inversion H; subst; cbn; eauto 8.
Qed.

Lemma endExistingActivity_found id policy st o :
  activeActivities st !! id = Some o →
  ExpoLiveActivitiesModule.endExistingActivity id policy st
  = (Ok tt, {| activeActivities := delete id (activeActivities st);
               launched := ExpoLiveActivitiesModule.endTask o policy
                             :: launched st |}).
Proof.
  intros H. unfold ExpoLiveActivitiesModule.endExistingActivity.
  rewrite H. reflexivity.
Qed.

Lemma endExistingActivity_not_found id policy st :
  activeActivities st !! id = None →
  ExpoLiveActivitiesModule.endExistingActivity id policy st
  = (Err (Thrown (notFound id)), st).
Proof.
  intros H. unfold ExpoLiveActivitiesModule.endExistingActivity.
  by rewrite H.
Qed.

(** ** What each facade call does to the state *)

Lemma startActivity_effect h amb ty a c st r st' :
  startActivity h amb ty a c st = (r, st') →
  (∃ e, r = Err e ∧ st' = st) ∨
  (isSupported h = true ∧ ∃ k o,
     ty = JsString (kindName k) ∧ typed_as k o ∧
     r = Ok {| activityId := uuidString (fresh_uuid amb);
               activityType := kindName k;
               startTime := now amb |} ∧
     activeActivities st' = <[uuidString (fresh_uuid amb) := o]> (activeActivities st) ∧
     launched st' = launched st).
Proof.
  destruct (isSupported h) eqn:Hs;
    [| unfold startActivity; rewrite Hs; cbn; unfold_monad;
       intros H; inversion H; eauto].
  destruct ty as [| |b|n|type|fields];
    try (unfold startActivity; rewrite Hs; cbn; unfold_monad;
         rewrite ?orb_true_r; intros H; inversion H; eauto; fail).
  destruct (decide (type = "")) as [->|Hne];
    [unfold startActivity; rewrite Hs; cbn; unfold_monad;
     intros H; inversion H; eauto |].
  destruct (toDict (js_or a (JsObject ∅))) as [attrs|] eqn:Ha;
    [destruct (toDict (js_or c (JsObject ∅))) as [content|] eqn:Hc |].
  - intros H.
    assert (startActivity h amb (JsString type) a c st
            = startActivity h amb (JsString type) (JsObject attrs)
                (JsObject content) st) as Heq.
    { unfold startActivity. cbn [js_or truthy toDict]. by rewrite Ha, Hc. }
    rewrite Heq, startActivity_supported in H by done.
    destruct (ExpoLiveActivitiesModule.createActivity _ _ _ _ _ _)
      as [r0 st0] eqn:Hcreate.
    apply createActivity_cases in Hcreate
      as [(e & -> & ->) | (-> & k & o & -> & Hk & Hreg & Hl)].
    + inversion H; eauto.
    + inversion H; subst. right. split; [done |]. exists k, o. eauto.
  - unfold startActivity. rewrite Hs, Ha, Hc.
    apply truthy_JsString in Hne. rewrite Hne. cbn. unfold_monad.
    intros H; inversion H; eauto.
  - unfold startActivity. rewrite Hs, Ha.
    apply truthy_JsString in Hne. rewrite Hne. cbn. unfold_monad.
    intros H; inversion H; eauto.
Qed.

Lemma updateActivity_effect h id c st r st' :
  updateActivity h id c st = (r, st') →
  activeActivities st' = activeActivities st ∧
  ((∃ e, r = Err e ∧ st' = st) ∨
   (r = Ok tt ∧ ∃ t, launched st' = t :: launched st)).
Proof.
  destruct (isSupported h) eqn:Hs;
    [| unfold updateActivity; rewrite Hs; cbn; unfold_monad;
       intros H; inversion H; eauto].
  destruct id as [| |b|n|id|fields];
    try (unfold updateActivity; rewrite Hs; cbn; unfold_monad;
         rewrite ?orb_true_r; intros H; inversion H; eauto; fail).
  destruct (decide (id = "")) as [->|Hne];
    [unfold updateActivity; rewrite Hs; cbn; unfold_monad;
     intros H; inversion H; eauto |].
  destruct (toDict (js_or c (JsObject ∅))) as [content|] eqn:Hc.
  - intros H.
    assert (updateActivity h (JsString id) c st
            = updateActivity h (JsString id) (JsObject content) st) as Heq.
    { unfold updateActivity. cbn [js_or truthy toDict]. by rewrite Hc. }
    rewrite Heq, updateActivity_supported in H by done.
    destruct (ExpoLiveActivitiesModule.updateExistingActivity _ _ _)
      as [r0 st0] eqn:Hupd.
    apply updateExistingActivity_frame in Hupd
      as [Hreg [(e & -> & ->) | (-> & t & Hl)]];
      inversion H; subst; eauto 8.
  - unfold updateActivity. rewrite Hs, Hc.
    apply truthy_JsString in Hne. rewrite Hne. cbn. unfold_monad.
    intros H; inversion H; eauto.
Qed.

Lemma endActivity_effect h id p st r st' :
  endActivity h id p st = (r, st') →
  (∃ e, r = Err e ∧ st' = st ∧
        ∀ s, id = JsString s → isSupported h = true → s ≠ "" →
             activeActivities st !! s = None) ∨
  (r = Ok tt ∧ isSupported h = true ∧ ∃ s o,
     id = JsString s ∧ s ≠ "" ∧ activeActivities st !! s = Some o ∧
     activeActivities st' = delete s (activeActivities st) ∧
     launched st' =
       ExpoLiveActivitiesModule.endTask o
         (ExpoLiveActivitiesModule.parseDismissalPolicy h (or_default p))
       :: launched st).
Proof.
  destruct (isSupported h) eqn:Hs;
    [| unfold endActivity; rewrite Hs; cbn; unfold_monad;
       intros H; inversion H; left; eexists; intuition congruence].
  destruct id as [| |b|n|id|fields];
    try (unfold endActivity; rewrite Hs; cbn; unfold_monad;
         rewrite ?orb_true_r; intros H; inversion H; left; eexists;
         intuition congruence).
  destruct (decide (id = "")) as [->|Hne];
    [unfold endActivity; rewrite Hs; cbn; unfold_monad;
     intros H; inversion H; left; eexists; intuition congruence |].
  rewrite endActivity_supported by done.
  destruct (activeActivities st !! id) as [o|] eqn:Hlook.
  - rewrite (endExistingActivity_found _ _ _ _ Hlook).
    intros H; inversion H; subst. right. repeat split; try done.
    exists id, o. cbn. eauto.
  - rewrite (endExistingActivity_not_found _ _ _ Hlook).
    intros H; inversion H; subst. left. eexists. repeat split; try done.
    intros s [= <-] _ _. done.
Qed.

(** ** Ending every activity *)

(** The calls [endAllActivities] fans out. *)
Definition end_each (h : Host) (policy : string) (ids : list string)
  : M JsError unit :=
  Promise_all (map (λ id, endActivity h (JsString id) (Some policy)) ids).

(** [Promise.all] reaches the state that running every call in turn
    reaches, whatever the individual results are. *)
Lemma Promise_all_state {E} (calls : list (M E unit)) st :
  snd (Promise_all calls st) = foldl (λ s call, snd (call s)) st calls.
Proof.
  revert st. induction calls as [|call rest IH]; intros st; [done |].
  cbn [Promise_all foldl]. destruct (call st) as [r st'] eqn:Hc.
  specialize (IH st'). destruct (Promise_all rest st') as [rs st''].
  cbn in *. by rewrite IH.
Qed.

(** On a supported host every non-empty id handed to the fan-out is gone
    afterwards, and no other entry is touched. *)
Lemma end_each_registry h policy ids st id :
  isSupported h = true →
  activeActivities (snd (end_each h policy ids st)) !! id =
  if bool_decide (id ∈ ids ∧ id ≠ "") then None
  else activeActivities st !! id.
Proof.
  intros Hs. unfold end_each. revert st.
  induction ids as [|a ids IH]; intros st.
  - cbn. rewrite bool_decide_eq_false_2; [done | set_solver].
  - cbn [map Promise_all].
    destruct (endActivity h (JsString a) (Some policy) st) as [r st'] eqn:He.
    specialize (IH st').
    destruct (Promise_all _ st') as [rs st''] eqn:Hp. cbn [snd] in *.
    rewrite IH. clear IH Hp.
    apply endActivity_effect in He
      as [(e & -> & -> & Habs) | (-> & _ & s & o & [= <-] & Hne & Hl & Hreg & _)].
    + destruct (decide (id ∈ ids ∧ id ≠ "")) as [Hin|Hin].
      * rewrite !bool_decide_eq_true_2; [done | set_solver | done].
      * rewrite (bool_decide_eq_false_2 _ Hin).
        destruct (decide (id = a ∧ a ≠ "")) as [[-> Hne]|Hna].
        -- rewrite bool_decide_eq_true_2 by set_solver. by apply Habs.
        -- rewrite bool_decide_eq_false_2; [done |].
           intros [Hin' Hne]. apply Hna. set_solver.
    + rewrite Hreg.
      destruct (decide (id = a)) as [->|Hna].
      * rewrite lookup_delete_eq.
        rewrite (bool_decide_eq_true_2 (a ∈ a :: ids ∧ a ≠ "")) by set_solver.
        by case_bool_decide.
      * rewrite lookup_delete_ne by done.
        destruct (decide (id ∈ ids ∧ id ≠ "")) as [Hin|Hin].
        -- rewrite !bool_decide_eq_true_2; [done | set_solver | done].
        -- rewrite !bool_decide_eq_false_2; [done | set_solver | done].
Qed.

(** When every id is a distinct, non-empty key of the registry, every end
    succeeds and so does the aggregate. *)
Lemma end_each_succeeds h policy ids st :
  isSupported h = true → NoDup ids →
  (∀ id, id ∈ ids → id ≠ "" ∧ is_Some (activeActivities st !! id)) →
  fst (end_each h policy ids st) = Ok tt.
Proof.
  intros Hs. unfold end_each. revert st.
  induction ids as [|a ids IH]; intros st Hnd Hall; [done |].
  cbn [map Promise_all]. apply NoDup_cons in Hnd as [Hnotin Hnd].
  destruct (Hall a) as [Hne [o Ho]]; [set_solver |].
  rewrite endActivity_supported by done.
  rewrite (endExistingActivity_found _ _ _ _ Ho).
  match goal with |- context [Promise_all ?cs ?s] =>
    specialize (IH s Hnd); destruct (Promise_all cs s) as [rs st''] end.
  cbn in *. apply IH. intros id Hin. destruct (Hall id) as [? [o' Ho']];
    [set_solver |].
  split; [done |]. exists o'. rewrite lookup_delete_ne; [done |].
  intros ->. done.
Qed.

Lemma endAllActivities_unsupported h policy st :
  isSupported h = false → endAllActivities h policy st = (Ok tt, st).
Proof. intros Hs. unfold endAllActivities. by rewrite Hs. Qed.

Lemma endAllActivities_supported h policy st :
  isSupported h = true →
  endAllActivities h policy st =
  match end_each h (or_default policy)
          (map fst (map_to_list (activeActivities st))) st with
  | (Ok _, st') => (Ok tt, st')
  | (Err e, st') =>
      (Err (ErrorOfError "Failed to end all activities: " e), st')
  end.
Proof.
  intros Hs. unfold endAllActivities. rewrite Hs. cbn [negb].
  unfold do_catch at 1. unfold bind at 1.
  rewrite getAllActivities_supported by done. unfold end_each, throw.
  destruct (Promise_all _ _) as [[[]|e] st']; reflexivity.
Qed.

(** Whatever the aggregate result, only entries under the empty id can
    survive [endAllActivities] on a supported host, and they are the
    entries that were there before. *)
Lemma endAllActivities_registry h policy st id :
  isSupported h = true →
  activeActivities (snd (endAllActivities h policy st)) !! id =
  if bool_decide (id = "") then activeActivities st !! id else None.
Proof.
  intros Hs. rewrite endAllActivities_supported by done.
  pose proof (end_each_registry h (or_default policy)
                (map fst (map_to_list (activeActivities st))) st id Hs) as H.
  destruct (end_each _ _ _ _) as [[[]|e] st']; cbn [snd] in *; rewrite H;
    (case_bool_decide as Hin; case_bool_decide as He; try done;
     [ destruct Hin as [_ Hin]; contradiction
     | destruct (activeActivities st !! id) as [o|] eqn:Hl; [| done];
       exfalso; apply Hin; split; [| done];
       apply elem_of_keys; eauto ]).
Qed.

(** ** Invariants of the registry *)

(** Every entry of the registry sits under a generated id, holds one of
    the typed handles, and exists only on a host the facade supports. *)
Definition wf (h : Host) (st : ModuleState) : Prop :=
  ∀ id o, activeActivities st !! id = Some o →
    isSupported h = true ∧ (∃ u, id = uuidString u) ∧ ∃ k, typed_as k o.

Lemma wf_nonempty_id h st id o :
  wf h st → activeActivities st !! id = Some o → id ≠ "".
Proof.
  intros Hwf Hl. destruct (Hwf _ _ Hl) as (_ & [u ->] & _).
  apply uuidString_nonempty.
Qed.

Lemma wf_unsupported h st id :
  wf h st → isSupported h = false → activeActivities st !! id = None.
Proof.
  intros Hwf Hs. destruct (activeActivities st !! id) as [o|] eqn:Hl; [| done].
  destruct (Hwf _ _ Hl) as (Hs' & _). congruence.
Qed.

(** The three facts a history maintains together: the registry is well
    formed, its ids are the live ones, and each handle has the kind its
    id was created with. *)
Definition tracked (h : Host) (log : list (Call * Result JsError Outcome))
    (st : ModuleState) : Prop :=
  wf h st ∧
  (∀ id, is_Some (activeActivities st !! id) ↔ id ∈ live log) ∧
  (∀ id o, activeActivities st !! id = Some o →
     ∃ k, created_as log !! id = Some (kindName k) ∧ typed_as k o).

Lemma tracked_step h log st c :
  tracked h log st →
  tracked h ((c, fst (perform h c st)) :: log) (snd (perform h c st)).
Proof.
  intros (Hwf & Hlive & Hkind). destruct c as [amb ty a cs|id cs|id p| |p].
  - (* startActivity *)
    unfold perform, bind, ret.
    destruct (startActivity h amb ty a cs st) as [r st'] eqn:Hstart.
    apply startActivity_effect in Hstart
      as [(e & -> & ->) | (Hs & k & o & -> & Hk & -> & Hreg & Hl)]; cbn.
    + done.
    + split; [| split].
      * intros id o'. rewrite Hreg. intros Hlook.
        apply lookup_insert_Some in Hlook as [[<- <-]|[_ Hold]]; eauto.
      * intros id. rewrite Hreg, lookup_insert_is_Some, Hlive.
        destruct (decide (uuidString (fresh_uuid amb) = id)); set_solver.
      * intros id o'. rewrite Hreg. intros Hlook.
        apply lookup_insert_Some in Hlook as [[<- <-]|[Hne Hold]].
        -- exists k. cbn [created_as activityId activityType].
           by rewrite lookup_insert_eq.
        -- cbn [created_as activityId activityType].
           rewrite lookup_insert_ne by done. eauto.
  - (* updateActivity *)
    unfold perform, bind, ret.
    destruct (updateActivity h id cs st) as [r st'] eqn:Hupd.
    apply updateActivity_effect in Hupd
      as [Hreg [(e & -> & ->) | (-> & t & Hl)]]; cbn; [done |].
    unfold tracked, wf. rewrite Hreg. done.
  - (* endActivity *)
    unfold perform, bind, ret.
    destruct (endActivity h id p st) as [r st'] eqn:Hend.
    apply endActivity_effect in Hend
      as [(e & -> & -> & Habs)
         | (-> & Hs & s & o & -> & Hne & Hlook & Hreg & Hl)]; cbn [fst snd].
    + split; [done |]. split; [| done].
      destruct id as [| |b|n|s|fields]; cbn [live]; try done.
      intros x. rewrite Hlive.
      assert (activeActivities st !! s = None) as Hnone.
      { destruct (activeActivities st !! s) as [o|] eqn:Hl; [| done].
        destruct (Hwf _ _ Hl) as (Hs & _).
        rewrite (Habs s eq_refl Hs (wf_nonempty_id _ _ _ _ Hwf Hl)) in Hl.
        discriminate. }
      assert (s ∉ live log) as Hnot.
      { rewrite <- Hlive, Hnone. by intros [? ?]. }
      set_solver.
    + split; [| split].
      * intros x o'. rewrite Hreg. intros Hx.
        apply lookup_delete_Some in Hx as [_ Hx]. by apply Hwf.
      * intros x. cbn [live]. rewrite Hreg. split.
        -- intros [o' Hx]. apply lookup_delete_Some in Hx as [Hxs Hx].
           apply elem_of_difference. split; [apply Hlive; eauto | set_solver].
        -- intros Hx. apply elem_of_difference in Hx as [Hx Hxs].
           apply Hlive in Hx as [o' Hx]. exists o'.
           apply lookup_delete_Some. split; [set_solver | done].
      * intros x o'. rewrite Hreg. intros Hx.
        apply lookup_delete_Some in Hx as [_ Hx]. cbn [created_as]. eauto.
  - (* getAllActivities *)
    unfold perform, bind, ret.
    destruct (getAllActivities_total h st) as [ids ->]. cbn. done.
  - (* endAllActivities *)
    assert (∀ id, activeActivities (snd (endAllActivities h p st)) !! id = None)
      as Hnone.
    { intros id. destruct (isSupported h) eqn:Hs.
      - rewrite endAllActivities_registry by done.
        case_bool_decide as Hid; [| done]. subst id.
        destruct (activeActivities st !! "") as [o|] eqn:Hl; [| done].
        by destruct (wf_nonempty_id _ _ _ _ Hwf Hl).
      - rewrite endAllActivities_unsupported by done.
        by apply wf_unsupported with h. }
    unfold perform, bind, ret.
    destruct (endAllActivities h p st) as [[[]|e] st']; cbn [fst snd] in *.
    + split; [| split].
      * intros id o. by rewrite Hnone.
      * intros id. rewrite Hnone. cbn [live]. split; [by intros [? ?] | set_solver].
      * intros id o. by rewrite Hnone.
    + split; [| split].
      * intros id o. by rewrite Hnone.
      * intros id. rewrite Hnone. cbn [live]. split; [by intros [? ?] | set_solver].
      * intros id o. by rewrite Hnone.
Qed.

Lemma history_tracked h log st : history h log st → tracked h log st.
Proof.
  induction 1 as [|log st c _ IH]; [| by apply tracked_step].
  unfold tracked, wf, initial. cbn [activeActivities live created_as].
  split; [| split].
  - intros id o. by rewrite lookup_empty.
  - intros id. rewrite lookup_empty. split; [by intros [? ?] | set_solver].
  - intros id o. by rewrite lookup_empty.
Qed.

Lemma reachable_wf h st : reachable h st → wf h st.
Proof. intros [log H]. by destruct (history_tracked _ _ _ H). Qed.

(** ** The sample state *)

Definition start_1 : Call :=
  Start ambient_1 (JsString "CounterActivity")
    (obj [("title", str "T")]) (obj [("value", int 10)]).

Definition info_1 : ActivityInfo :=
  {| activityId := "00000001-0002-0003-0004-000000000005";
     activityType := "CounterActivity";
     startTime := NumInt 1700000000 |}.

Definition counter_1 : AnyObject :=
  CounterRef
    (mkActivity
       {| CounterActivityAttributes.title := "T";
          CounterActivityAttributes.color := None |}
       {| CounterActivityAttributes.value := 10;
          CounterActivityAttributes.status := None |}).

Lemma one_counter_started :
  startActivity iPhone_16_1 ambient_1 (JsString "CounterActivity")
    (obj [("title", str "T")]) (obj [("value", int 10)]) initial
  = (Ok info_1, one_counter).
Proof. vm_compute. reflexivity. Qed.

Lemma one_counter_history :
  history iPhone_16_1 [(start_1, Ok (Started info_1))] one_counter.
Proof. exact (history_cons iPhone_16_1 [] initial start_1 (history_nil _)). Qed.

Lemma one_counter_reachable : reachable iPhone_16_1 one_counter.
Proof. eexists. exact one_counter_history. Qed.

Lemma one_counter_lookup :
  activeActivities one_counter !! activityId info_1 = Some counter_1.
Proof. vm_compute. reflexivity. Qed.

(** ** The registry and the live instances *)

(** C1. After a successful [startActivity] the returned id is among the
    ids [getAllActivities] returns, and after [endActivity] on that id it
    no longer is.  Along every history of calls the ids the registry lists
    are exactly the live ones (started and not ended since).  An end of a
    registered id removes the entry in the same call in which the host
    teardown is merely launched as a task. *)
Theorem registry_holds_exactly_the_live_instances (h : Host) :
  (∀ amb ty attrs content st info st',
     startActivity h amb ty attrs content st = (Ok info, st') →
     (∃ ids, getAllActivities h st' = (Ok ids, st') ∧ activityId info ∈ ids) ∧
     (∀ st2 policy,
        let st3 := snd (endActivity h (JsString (activityId info)) policy st2) in
        ∃ ids, getAllActivities h st3 = (Ok ids, st3) ∧ activityId info ∉ ids)) ∧
  (∀ log st, history h log st →
     ∃ ids, getAllActivities h st = (Ok ids, st) ∧
            ∀ id, id ∈ ids ↔ id ∈ live log) ∧
  (∀ st id o policy,
     isSupported h = true → id ≠ "" → activeActivities st !! id = Some o →
     endActivity h (JsString id) policy st =
     (Ok tt,
      {| activeActivities := delete id (activeActivities st);
         launched :=
           ExpoLiveActivitiesModule.endTask o
             (ExpoLiveActivitiesModule.parseDismissalPolicy h (or_default policy))
           :: launched st |})).
Proof.
  split; [| split].
  - intros amb ty attrs content st info st' Hstart.
    apply startActivity_effect in Hstart
      as [(e & [=] & _) | (Hs & k & o & -> & Hk & [= ->] & Hreg & Hl)].
    cbn [activityId]. split.
    + eexists. split; [by apply getAllActivities_supported |].
      apply elem_of_keys. rewrite Hreg, lookup_insert_eq. eauto.
    + intros st2 policy.
      destruct (endActivity h _ policy st2) as [r st3] eqn:Hend. cbn [snd].
      eexists. split; [by apply getAllActivities_supported |].
      rewrite elem_of_keys.
      apply endActivity_effect in Hend
        as [(e & -> & -> & Habs)
           | (-> & _ & s & o' & [= <-] & _ & _ & Hreg' & _)].
      * rewrite (Habs _ eq_refl Hs (uuidString_nonempty _)). by intros [? ?].
      * rewrite Hreg', lookup_delete_eq. by intros [? ?].
  - intros log st Hhist.
    destruct (history_tracked _ _ _ Hhist) as (Hwf & Hlive & _).
    destruct (isSupported h) eqn:Hs.
    + eexists. split; [by apply getAllActivities_supported |].
      intros id. by rewrite elem_of_keys.
    + exists []. split; [by apply getAllActivities_unsupported |].
      intros id. rewrite <- Hlive, (wf_unsupported _ _ _ Hwf Hs).
      split; [by intros ?%elem_of_nil | by intros [? ?]].
  - intros st id o policy Hs Hne Hlook.
    rewrite endActivity_supported by done.
    by rewrite (endExistingActivity_found _ _ _ _ Hlook).
Qed.

Lemma registry_holds_exactly_the_live_instances_witness :
  startActivity iPhone_16_1 ambient_1 (JsString "CounterActivity")
    (obj [("title", str "T")]) (obj [("value", int 10)]) initial
  = (Ok info_1, one_counter) ∧
  (∃ ids, getAllActivities iPhone_16_1 one_counter = (Ok ids, one_counter) ∧
          activityId info_1 ∈ ids) ∧
  (let st3 := snd (endActivity iPhone_16_1 (JsString (activityId info_1))
                     (Some "immediate") one_counter) in
   ∃ ids, getAllActivities iPhone_16_1 st3 = (Ok ids, st3) ∧
          activityId info_1 ∉ ids) ∧
  (∃ ids, getAllActivities iPhone_16_1 one_counter = (Ok ids, one_counter) ∧
          ∀ id, id ∈ ids ↔ id ∈ live [(start_1, Ok (Started info_1))]) ∧
  endActivity iPhone_16_1 (JsString (activityId info_1)) None one_counter
  = (Ok tt,
     {| activeActivities :=
          delete (activityId info_1) (activeActivities one_counter);
        launched := [ExpoLiveActivitiesModule.endTask counter_1 default] |}).
Proof.
  destruct (registry_holds_exactly_the_live_instances iPhone_16_1)
    as (Hstart & Hlive & Hremove).
  destruct (Hstart _ _ _ _ _ _ _ one_counter_started) as [Hlisted Hended].
  split; [exact one_counter_started |]. split; [exact Hlisted |].
  split; [exact (Hended one_counter (Some "immediate")) |].
  split; [exact (Hlive _ _ one_counter_history) |].
  refine (Hremove one_counter _ _ None eq_refl _ one_counter_lookup).
  discriminate.
Defined.

(** ** Creation errors *)

Lemma createActivity_Counter amb id attrs content st :
  ExpoLiveActivitiesModule.createActivity amb id "CounterActivity" attrs content st
  = ExpoLiveActivitiesModule.createCounterActivity amb id attrs content st.
Proof.
  unfold ExpoLiveActivitiesModule.createActivity. by rewrite decide_True.
Qed.

Lemma createActivity_Status amb id attrs content st :
  ExpoLiveActivitiesModule.createActivity amb id "StatusActivity" attrs content st
  = ExpoLiveActivitiesModule.createStatusActivity amb id attrs content st.
Proof.
  unfold ExpoLiveActivitiesModule.createActivity.
  rewrite decide_False by done. by rewrite decide_True.
Qed.

Lemma createActivity_Progress amb id attrs content st :
  ExpoLiveActivitiesModule.createActivity amb id "ProgressActivity" attrs content st
  = ExpoLiveActivitiesModule.createProgressActivity amb id attrs content st.
Proof.
  unfold ExpoLiveActivitiesModule.createActivity.
  rewrite !decide_False by done. by rewrite decide_True.
Qed.

(** A start whose attributes lack the counter's [title], whatever the
    content is. *)
Lemma start_Counter_without_title h amb attrs content st :
  isSupported h = true → field asString attrs "title" = None →
  startActivity h amb (JsString "CounterActivity") (JsObject attrs)
    (JsObject content) st
  = (Err (start_error
            (Thrown (invalidAttributes "Missing 'title' for CounterActivity"))),
     st).
Proof.
  intros Hs Hf. rewrite startActivity_supported by done.
  rewrite createActivity_Counter.
  unfold ExpoLiveActivitiesModule.createCounterActivity,
    ExpoLiveActivitiesModule.parseCounterAttributes.
  unfold_monad. by rewrite Hf.
Qed.

(** C2, as amended. On a supported host,
    [startActivity("CounterActivity", {}, {value: 1})] fails with the
    invalid-attributes error that names the missing [title], and
    [startActivity("StatusActivity", {identifier:"X", title:"Y"}, {})] fails
    with the invalid-content error that names the missing [status]; neither
    call changes the state. The registered kind names are
    [CounterActivity] and [StatusActivity]. *)
Theorem missing_required_field_is_reported (h : Host) (amb : Ambient)
    (st : ModuleState) :
  isSupported h = true →
  startActivity h amb (JsString "CounterActivity") (obj [])
    (obj [("value", int 1)]) st
  = (Err (start_error
            (Thrown (invalidAttributes "Missing 'title' for CounterActivity"))),
     st) ∧
  startActivity h amb (JsString "StatusActivity")
    (obj [("identifier", str "X"); ("title", str "Y")]) (obj []) st
  = (Err (start_error
            (Thrown (invalidContent "Missing 'status' for StatusActivity"))),
     st).
Proof.
  intros Hs. split.
  - by apply start_Counter_without_title.
  - unfold obj. rewrite startActivity_supported by done.
    rewrite createActivity_Status.
    unfold ExpoLiveActivitiesModule.createStatusActivity. unfold_monad.
    assert (ExpoLiveActivitiesModule.parseStatusAttributes
              (list_to_map [("identifier", str "X"); ("title", str "Y")])
            = Ok {| StatusActivityAttributes.identifier := "X";
                    StatusActivityAttributes.title := "Y" |}) as ->
        by (vm_compute; reflexivity).
    assert (ExpoLiveActivitiesModule.parseStatusContent (list_to_map [])
            = Err (Thrown (invalidContent
                             "Missing 'status' for StatusActivity"))) as ->
        by (vm_compute; reflexivity).
    reflexivity.
Qed.

Lemma missing_required_field_is_reported_witness :
  isSupported iPhone_16_1 = true ∧
  startActivity iPhone_16_1 ambient_1 (JsString "CounterActivity") (obj [])
    (obj [("value", int 1)]) initial
  = (Err (ErrorOfNative "Failed to start activity: "
            (NativeError
               (startFailed
                  "Invalid attributes: Missing 'title' for CounterActivity"))),
     initial) ∧
  startActivity iPhone_16_1 ambient_1 (JsString "StatusActivity")
    (obj [("identifier", str "X"); ("title", str "Y")]) (obj []) initial
  = (Err (ErrorOfNative "Failed to start activity: "
            (NativeError
               (startFailed
                  "Invalid content: Missing 'status' for StatusActivity"))),
     initial).
Proof.
  split; [reflexivity |].
  exact (missing_required_field_is_reported iPhone_16_1 ambient_1 initial
           eq_refl).
Defined.

(** C2, as stated, fails: the kind names [Counter] and [Status] are not
    registered, so either start is rejected as an unknown kind before any
    attribute or content is parsed. *)
Lemma start_Counter_is_an_unknown_kind :
  isSupported iPhone_16_1 = true ∧
  fst (startActivity iPhone_16_1 ambient_1 (JsString "Counter") (obj [])
         (obj [("value", int 1)]) initial)
  = Err (start_error (Thrown (unknownType "Counter"))) ∧
  fst (startActivity iPhone_16_1 ambient_1 (JsString "Status")
         (obj [("identifier", str "X"); ("title", str "Y")]) (obj []) initial)
  = Err (start_error (Thrown (unknownType "Status"))) ∧
  (¬ ∃ message,
       fst (startActivity iPhone_16_1 ambient_1 (JsString "Counter") (obj [])
              (obj [("value", int 1)]) initial)
       = Err (start_error (Thrown (invalidAttributes message)))) ∧
  (¬ ∃ message,
       fst (startActivity iPhone_16_1 ambient_1 (JsString "Status")
              (obj [("identifier", str "X"); ("title", str "Y")]) (obj [])
              initial)
       = Err (start_error (Thrown (invalidContent message)))).
Proof.
  assert (fst (startActivity iPhone_16_1 ambient_1 (JsString "Counter") (obj [])
                 (obj [("value", int 1)]) initial)
          = Err (start_error (Thrown (unknownType "Counter")))) as Hcounter
      by (vm_compute; reflexivity).
  assert (fst (startActivity iPhone_16_1 ambient_1 (JsString "Status")
                 (obj [("identifier", str "X"); ("title", str "Y")]) (obj [])
                 initial)
          = Err (start_error (Thrown (unknownType "Status")))) as Hstatus
      by (vm_compute; reflexivity).
  split; [reflexivity |]. split; [exact Hcounter |]. split; [exact Hstatus |].
  split.
  - intros [message H]. rewrite Hcounter in H. cbn in H. discriminate H.
  - intros [message H]. rewrite Hstatus in H. cbn in H. discriminate H.
Qed.

(** C3, as amended. The bridge's [startActivity] on a host with the
    capability rejects every kind string outside the catalog as an unknown
    kind and leaves the state as it was; so does the facade's
    [startActivity] on a supported host for every such kind string that
    is not empty, and in particular for [DoesNotExist]. *)
Theorem unknown_kind_is_rejected (h : Host) (amb : Ambient) (kind : string)
    (attrs content : Dict) (st : ModuleState) :
  kind ∉ catalog →
  (available h 16 1 = true →
   ExpoLiveActivitiesModule.startActivity h amb kind attrs content st
   = (Err (startFailed (errorDescription (unknownType kind))), st)) ∧
  (isSupported h = true → kind ≠ "" →
   startActivity h amb (JsString kind) (JsObject attrs) (JsObject content) st
   = (Err (start_error (Thrown (unknownType kind))), st)) ∧
  (isSupported h = true →
   startActivity h amb (JsString "DoesNotExist") (obj []) (obj []) st
   = (Err (start_error (Thrown (unknownType "DoesNotExist"))), st)).
Proof.
  intros Hnot. split; [| split].
  - intros Hav. unfold ExpoLiveActivitiesModule.startActivity.
    rewrite Hav. cbn [negb]. unfold_monad.
    by rewrite createActivity_unknown.
  - intros Hs Hne. rewrite startActivity_supported by done.
    by rewrite createActivity_unknown.
  - intros Hs. unfold obj. rewrite startActivity_supported by done.
    rewrite createActivity_unknown; [done |].
    unfold catalog. cbn [map kindName]. set_solver.
Qed.

Lemma unknown_kind_is_rejected_witness :
  "DoesNotExist" ∉ catalog ∧ available iPhone_16_1 16 1 = true ∧
  isSupported iPhone_16_1 = true ∧
  ExpoLiveActivitiesModule.startActivity iPhone_16_1 ambient_2 "DoesNotExist"
    ∅ ∅ one_counter
  = (Err (startFailed "Unknown activity type: DoesNotExist"), one_counter) ∧
  startActivity iPhone_16_1 ambient_2 (JsString "DoesNotExist") (JsObject ∅)
    (JsObject ∅) one_counter
  = (Err (start_error (Thrown (unknownType "DoesNotExist"))), one_counter) ∧
  startActivity iPhone_16_1 ambient_2 (JsString "DoesNotExist") (obj [])
    (obj []) one_counter
  = (Err (start_error (Thrown (unknownType "DoesNotExist"))), one_counter).
Proof.
  assert ("DoesNotExist" ∉ catalog) as Hnot
      by (unfold catalog; cbn [map kindName]; set_solver).
  destruct (unknown_kind_is_rejected iPhone_16_1 ambient_2 "DoesNotExist"
              ∅ ∅ one_counter Hnot) as (Hbridge & Hfacade & Hexample).
  split; [exact Hnot |]. split; [reflexivity |]. split; [reflexivity |].
  split; [exact (Hbridge eq_refl) |].
  split; [| exact (Hexample eq_refl)].
  apply (Hfacade eq_refl). discriminate.
Defined.

(** C3, as stated, fails at the facade: the empty string is a kind string
    outside the catalog, and on a supported host it is rejected as an
    invalid argument, not as an unknown kind. *)
Lemma start_with_empty_kind_is_an_invalid_argument :
  "" ∉ catalog ∧ isSupported iPhone_16_1 = true ∧
  startActivity iPhone_16_1 ambient_1 (JsString "") (obj []) (obj []) initial
  = (Err (Error "activityType must be a non-empty string"), initial) ∧
  startActivity iPhone_16_1 ambient_1 (JsString "") (obj []) (obj []) initial
  ≠ (Err (start_error (Thrown (unknownType ""))), initial).
Proof.
  split; [unfold catalog; cbn [map kindName]; set_solver |].
  split; [reflexivity |].
  assert (startActivity iPhone_16_1 ambient_1 (JsString "") (obj []) (obj [])
            initial
          = (Err (Error "activityType must be a non-empty string"), initial))
    as Hrun by (vm_compute; reflexivity).
  split; [exact Hrun |]. rewrite Hrun. discriminate.
Qed.

(** ** Updates of ids that are not live *)

(** C4, as amended. On a supported host, for every non-empty id with no
    live instance and for every content record (or a null or undefined
    payload), [updateActivity] fails with the not-found error and changes
    nothing; the bridge's own [updateActivity] does so for every id, the
    empty one included, since it looks the id up before it parses any
    content. *)
Theorem update_of_unknown_id_is_not_found (h : Host) (id : string)
    (content : Dict) (st : ModuleState) :
  activeActivities st !! id = None →
  (available h 16 1 = true →
   ExpoLiveActivitiesModule.updateActivity h id content st
   = (Err (updateFailed (errorDescription (notFound id))), st)) ∧
  (isSupported h = true → id ≠ "" →
   updateActivity h (JsString id) (JsObject content) st
   = (Err (update_error (Thrown (notFound id))), st) ∧
   updateActivity h (JsString id) JsNull st
   = (Err (update_error (Thrown (notFound id))), st) ∧
   updateActivity h (JsString id) JsUndefined st
   = (Err (update_error (Thrown (notFound id))), st)).
Proof.
  intros Hnone. split.
  - intros Hav. unfold ExpoLiveActivitiesModule.updateActivity.
    rewrite Hav. cbn [negb]. unfold_monad.
    by rewrite updateExistingActivity_not_found.
  - intros Hs Hne.
    assert (∀ c, updateActivity h (JsString id) (JsObject c) st
                 = (Err (update_error (Thrown (notFound id))), st)) as Hobj.
    { intros c. rewrite updateActivity_supported by done.
      by rewrite updateExistingActivity_not_found. }
    split; [apply Hobj |]. split; apply (Hobj ∅).
Qed.

Lemma update_of_unknown_id_is_not_found_witness :
  activeActivities one_counter !! "no-such-id" = None ∧
  available iPhone_16_1 16 1 = true ∧ isSupported iPhone_16_1 = true ∧
  ExpoLiveActivitiesModule.updateActivity iPhone_16_1 "no-such-id"
    (list_to_map [("value", str "not a number")]) one_counter
  = (Err (updateFailed "Activity not found: no-such-id"), one_counter) ∧
  updateActivity iPhone_16_1 (JsString "no-such-id")
    (obj [("value", str "not a number")]) one_counter
  = (Err (update_error (Thrown (notFound "no-such-id"))), one_counter) ∧
  updateActivity iPhone_16_1 (JsString "no-such-id") JsNull one_counter
  = (Err (update_error (Thrown (notFound "no-such-id"))), one_counter).
Proof.
  assert (activeActivities one_counter !! "no-such-id" = None) as Hnone
      by (vm_compute; reflexivity).
  destruct (update_of_unknown_id_is_not_found iPhone_16_1 "no-such-id"
              (list_to_map [("value", str "not a number")]) one_counter Hnone)
    as (Hbridge & Hfacade).
  split; [exact Hnone |]. split; [reflexivity |]. split; [reflexivity |].
  split; [exact (Hbridge eq_refl) |].
  assert ("no-such-id" ≠ "") as Hne by discriminate.
  destruct (Hfacade eq_refl Hne) as (Hrecord & Hnull & _).
  split; [exact Hrecord | exact Hnull].
Defined.

(** C4, as stated, fails at the facade: the empty id has no live
    instance, and on a supported host an update of it is rejected as an
    invalid argument before any lookup. *)
Lemma update_of_empty_id_is_an_invalid_argument :
  activeActivities initial !! "" = None ∧ isSupported iPhone_16_1 = true ∧
  updateActivity iPhone_16_1 (JsString "") (obj [("value", int 5)]) initial
  = (Err (Error "activityId must be a non-empty string"), initial) ∧
  updateActivity iPhone_16_1 (JsString "") (obj [("value", int 5)]) initial
  ≠ (Err (update_error (Thrown (notFound ""))), initial).
Proof.
  split; [reflexivity |]. split; [reflexivity |].
  assert (updateActivity iPhone_16_1 (JsString "") (obj [("value", int 5)])
            initial
          = (Err (Error "activityId must be a non-empty string"), initial))
    as Hrun by (vm_compute; reflexivity).
  split; [exact Hrun |]. rewrite Hrun. discriminate.
Qed.

(** ** Validation before any host call *)

(** C5, as amended. [startActivity] fails with the unsupported error
    whenever [isSupported] is false, and on a supported host it fails with
    the invalid-argument error whenever the kind is the empty string or
    not a string.  In every one of these cases the call fails with the
    state returned as it was: no registry entry is made and no host task
    is launched. *)
Theorem start_validates_before_any_host_call (h : Host) (amb : Ambient)
    (activityType attributes contentState : JsValue) (st : ModuleState) :
  (isSupported h = false →
   startActivity h amb activityType attributes contentState st
   = (Err (Error unsupported_message), st)) ∧
  (isSupported h = true →
   activityType = JsString "" ∨ typeof_string activityType = false →
   startActivity h amb activityType attributes contentState st
   = (Err (Error "activityType must be a non-empty string"), st)) ∧
  (isSupported h = false ∨
   activityType = JsString "" ∨ typeof_string activityType = false →
   ∃ message,
     startActivity h amb activityType attributes contentState st
     = (Err (Error message), st)).
Proof.
  assert (isSupported h = true →
          activityType = JsString "" ∨ typeof_string activityType = false →
          startActivity h amb activityType attributes contentState st
          = (Err (Error "activityType must be a non-empty string"), st))
    as Hinvalid.
  { intros Hs Hbad. unfold startActivity. rewrite Hs. cbn [negb].
    destruct Hbad as [-> | Hty]; [done |].
    rewrite Hty. cbn [negb]. by rewrite orb_true_r. }
  assert (isSupported h = false →
          startActivity h amb activityType attributes contentState st
          = (Err (Error unsupported_message), st)) as Hunsupported.
  { intros Hs. unfold startActivity. by rewrite Hs. }
  split; [exact Hunsupported |]. split; [exact Hinvalid |].
  intros Hbad. destruct (isSupported h) eqn:Hs.
  - destruct Hbad as [? | Hbad]; [done |]. eauto.
  - eauto.
Qed.

Lemma start_validates_before_any_host_call_witness :
  isSupported android = false ∧
  startActivity android ambient_1 (JsString "CounterActivity")
    (obj [("title", str "T")]) (obj [("value", int 10)]) initial
  = (Err (Error unsupported_message), initial) ∧
  isSupported iPhone_16_1 = true ∧
  startActivity iPhone_16_1 ambient_2 (JsNumber (NumInt 7))
    (obj [("title", str "T")]) (obj [("value", int 10)]) one_counter
  = (Err (Error "activityType must be a non-empty string"), one_counter) ∧
  startActivity iPhone_16_1 ambient_2 (JsString "")
    (obj [("title", str "T")]) (obj [("value", int 10)]) one_counter
  = (Err (Error "activityType must be a non-empty string"), one_counter) ∧
  ∃ message,
    startActivity android ambient_1 (JsString "") (obj []) (obj []) initial
    = (Err (Error message), initial).
Proof.
  split; [reflexivity |].
  split; [exact (proj1 (start_validates_before_any_host_call android ambient_1
                          _ _ _ initial) eq_refl) |].
  split; [reflexivity |].
  split; [exact (proj1 (proj2 (start_validates_before_any_host_call
                                 iPhone_16_1 ambient_2 (JsNumber (NumInt 7))
                                 _ _ one_counter))
                   eq_refl (or_intror eq_refl)) |].
  split; [exact (proj1 (proj2 (start_validates_before_any_host_call
                                 iPhone_16_1 ambient_2 (JsString "")
                                 _ _ one_counter))
                   eq_refl (or_introl eq_refl)) |].
  exact (proj2 (proj2 (start_validates_before_any_host_call android ambient_1
                         (JsString "") (obj []) (obj []) initial))
           (or_introl eq_refl)).
Defined.

(** C5, as stated, fails where both conditions meet: on an unsupported
    host the support gate comes first, so a start with the empty kind
    fails with the unsupported error, not with the invalid-argument
    error. *)
Lemma start_with_empty_kind_on_unsupported_host :
  isSupported android = false ∧
  startActivity android ambient_1 (JsString "") (obj []) (obj []) initial
  = (Err (Error unsupported_message), initial) ∧
  startActivity android ambient_1 (JsString "") (obj []) (obj []) initial
  ≠ (Err (Error "activityType must be a non-empty string"), initial).
Proof.
  split; [reflexivity |].
  assert (startActivity android ambient_1 (JsString "") (obj []) (obj [])
            initial
          = (Err (Error unsupported_message), initial)) as Hrun
      by (vm_compute; reflexivity).
  split; [exact Hrun |]. rewrite Hrun. discriminate.
Qed.

(** ** Dismissal policies *)

Lemma parseDismissalPolicy_after h :
  available h 16 2 = false →
  ExpoLiveActivitiesModule.parseDismissalPolicy h "after" = default.
Proof.
  intros Hav. unfold ExpoLiveActivitiesModule.parseDismissalPolicy.
  cbn [lowercased]. rewrite decide_False by done.
  rewrite decide_True by done. by rewrite Hav.
Qed.

Lemma parseDismissalPolicy_default h :
  ExpoLiveActivitiesModule.parseDismissalPolicy h "default" = default.
Proof.
  unfold ExpoLiveActivitiesModule.parseDismissalPolicy.
  cbn [lowercased]. by rewrite !decide_False.
Qed.

(** C6. On a host below iOS 16.2 the policy ["after"] is parsed as the
    default policy, so an [endActivity] that asks for it returns what the
    same call with ["default"] (or with no policy) returns and leaves the
    same state, at the bridge and at the facade; on such a host that
    supports live activities, the end of a registered id succeeds and the
    teardown is launched with the default policy. *)
Theorem after_policy_falls_back_to_default (h : Host) (st : ModuleState) :
  available h 16 2 = false →
  ExpoLiveActivitiesModule.parseDismissalPolicy h "after" = default ∧
  (∀ id, ExpoLiveActivitiesModule.endActivity h id "after" st
         = ExpoLiveActivitiesModule.endActivity h id "default" st) ∧
  (∀ id, endActivity h id (Some "after") st
         = endActivity h id (Some "default") st ∧
         endActivity h id (Some "after") st = endActivity h id None st) ∧
  (∀ id o, isSupported h = true → id ≠ "" →
           activeActivities st !! id = Some o →
           endActivity h (JsString id) (Some "after") st
           = (Ok tt,
              {| activeActivities := delete id (activeActivities st);
                 launched := ExpoLiveActivitiesModule.endTask o default
                               :: launched st |})).
Proof.
  intros Hav.
  assert (∀ id s, ExpoLiveActivitiesModule.endActivity h id "after" s
                  = ExpoLiveActivitiesModule.endActivity h id "default" s)
    as Hbridge.
  { intros id s. unfold ExpoLiveActivitiesModule.endActivity.
    by rewrite parseDismissalPolicy_after, parseDismissalPolicy_default. }
  assert (∀ id, endActivity h id (Some "after") st
                = endActivity h id (Some "default") st) as Hfacade.
  { intros id. unfold endActivity. cbn [or_default].
    destruct (negb (isSupported h)); [done |].
    destruct (negb (truthy id) || negb (typeof_string id)); [done |].
    destruct (toString id) as [s|]; [| done].
    unfold_monad. by rewrite Hbridge. }
  split; [by apply parseDismissalPolicy_after |].
  split; [intros id; apply Hbridge |].
  split; [intros id; split; [apply Hfacade | apply Hfacade] |].
  intros id o Hs Hne Hlook.
  rewrite endActivity_supported by done. cbn [or_default].
  rewrite parseDismissalPolicy_after by done.
  by rewrite (endExistingActivity_found _ _ _ _ Hlook).
Qed.

(** From iOS 16.2 on the policy is honoured. *)
Lemma parseDismissalPolicy_after_honoured h :
  available h 16 2 = true →
  ExpoLiveActivitiesModule.parseDismissalPolicy h "after" = after 3.
Proof.
  intros Hav. unfold ExpoLiveActivitiesModule.parseDismissalPolicy.
  cbn [lowercased]. rewrite decide_False by done.
  rewrite decide_True by done. by rewrite Hav.
Qed.

Example after_is_honoured_on_iOS_17 :
  ExpoLiveActivitiesModule.parseDismissalPolicy iPhone_17_0 "After" = after 3 ∧
  ExpoLiveActivitiesModule.parseDismissalPolicy iPhone_17_0 "IMMEDIATE"
  = immediate ∧
  ExpoLiveActivitiesModule.parseDismissalPolicy iPhone_17_0 "later" = default.
Proof. repeat split; vm_compute; reflexivity. Qed.

Lemma after_policy_falls_back_to_default_witness :
  available iPhone_16_1 16 2 = false ∧ isSupported iPhone_16_1 = true ∧
  ExpoLiveActivitiesModule.parseDismissalPolicy iPhone_16_1 "after" = default ∧
  endActivity iPhone_16_1 (JsString (activityId info_1)) (Some "after")
    one_counter
  = endActivity iPhone_16_1 (JsString (activityId info_1)) (Some "default")
      one_counter ∧
  endActivity iPhone_16_1 (JsString (activityId info_1)) (Some "after")
    one_counter
  = (Ok tt,
     {| activeActivities :=
          delete (activityId info_1) (activeActivities one_counter);
        launched := [ExpoLiveActivitiesModule.endTask counter_1 default] |}).
Proof.
  assert (available iPhone_16_1 16 2 = false) as Hav by reflexivity.
  destruct (after_policy_falls_back_to_default iPhone_16_1 one_counter Hav)
    as (Hparse & _ & Hfacade & Hlive).
  split; [exact Hav |]. split; [reflexivity |]. split; [exact Hparse |].
  split; [exact (proj1 (Hfacade _)) |].
  refine (Hlive _ _ eq_refl _ one_counter_lookup). discriminate.
Defined.

(** ** Ending everything *)

(** C7. [endAllActivities] returns without error and without touching
    the state whenever [isSupported] is false.  On a supported host, in
    any state reached through the API, it succeeds and a subsequent
    [getAllActivities] returns the empty list.  The fan-out is no
    transaction: it reaches the state that the individual ends reach one
    after the other, so on a supported host every non-empty id is gone
    afterwards whatever the aggregate result, and an end that fails after
    another has removed its entry leaves that entry removed. *)
Theorem endAllActivities_empties_the_registry (h : Host)
    (policy : option string) (st : ModuleState) :
  (isSupported h = false → endAllActivities h policy st = (Ok tt, st)) ∧
  (isSupported h = true → reachable h st →
   ∃ st', endAllActivities h policy st = (Ok tt, st') ∧
          getAllActivities h st' = (Ok [], st')) ∧
  (isSupported h = true →
   ∀ id, id ≠ "" →
         activeActivities (snd (endAllActivities h policy st)) !! id = None) ∧
  (∀ calls : list (M JsError unit),
     snd (Promise_all calls st) = foldl (λ s call, snd (call s)) st calls) ∧
  (isSupported h = true →
   ∀ id o missing,
     id ≠ "" → missing ≠ "" → missing ≠ id →
     activeActivities st !! id = Some o →
     activeActivities st !! missing = None →
     fst (end_each h (or_default policy) [id; missing] st)
     = Err (end_error (Thrown (notFound missing))) ∧
     activeActivities (snd (end_each h (or_default policy) [id; missing] st))
       !! id = None).
Proof.
  split; [by apply endAllActivities_unsupported |].
  split; [| split; [| split]].
  - intros Hs Hreach. apply reachable_wf in Hreach as Hwf.
    assert (fst (end_each h (or_default policy)
                   (map fst (map_to_list (activeActivities st))) st) = Ok tt)
      as Hok.
    { apply end_each_succeeds; [done | apply NoDup_fst_map_to_list |].
      intros x Hx%elem_of_keys. split; [| done].
      destruct Hx as [o Ho]. by eapply wf_nonempty_id. }
    pose proof (λ id, endAllActivities_registry h policy st id Hs) as Hreg.
    rewrite endAllActivities_supported in * by done.
    destruct (end_each _ _ _ _) as [r st'] eqn:Heach.
    cbn [fst] in Hok. subst r. cbn [snd] in Hreg.
    exists st'. split; [done |].
    rewrite getAllActivities_supported by done.
    assert (activeActivities st' = ∅) as ->.
    { apply map_empty. intros id. rewrite Hreg.
      case_bool_decide as Hid; [| done]. subst id.
      destruct (activeActivities st !! "") as [o|] eqn:Hl; [| done].
      by destruct (wf_nonempty_id _ _ _ _ Hwf Hl). }
    by rewrite map_to_list_empty.
  - intros Hs id Hne. rewrite endAllActivities_registry by done.
    by rewrite bool_decide_eq_false_2.
  - intros calls. apply Promise_all_state.
  - intros Hs id o missing Hne Hm Hdiff Hlook Hnone.
    split.
    + unfold end_each. cbn [map Promise_all].
      rewrite endActivity_supported by done.
      rewrite (endExistingActivity_found _ _ _ _ Hlook).
      rewrite endActivity_supported by done.
      rewrite endExistingActivity_not_found;
        [reflexivity | cbn; by rewrite lookup_delete_ne].
    + rewrite end_each_registry by done.
      rewrite bool_decide_eq_true_2; [done | set_solver].
Qed.

Lemma endAllActivities_empties_the_registry_witness :
  isSupported android = false ∧
  endAllActivities android None initial = (Ok tt, initial) ∧
  isSupported iPhone_16_1 = true ∧
  (∃ st', endAllActivities iPhone_16_1 (Some "immediate") one_counter
          = (Ok tt, st') ∧
          getAllActivities iPhone_16_1 st' = (Ok [], st')) ∧
  activeActivities
    (snd (endAllActivities iPhone_16_1 (Some "immediate") one_counter))
    !! activityId info_1 = None ∧
  fst (end_each iPhone_16_1 "immediate" [activityId info_1; "no-such-id"]
         one_counter)
  = Err (end_error (Thrown (notFound "no-such-id"))) ∧
  activeActivities
    (snd (end_each iPhone_16_1 "immediate" [activityId info_1; "no-such-id"]
            one_counter)) !! activityId info_1 = None.
Proof.
  split; [reflexivity |].
  split; [exact (proj1 (endAllActivities_empties_the_registry android None
                          initial) eq_refl) |].
  split; [reflexivity |].
  destruct (endAllActivities_empties_the_registry iPhone_16_1
              (Some "immediate") one_counter)
    as (_ & Hall & Hgone & _ & Hone).
  split; [exact (Hall eq_refl one_counter_reachable) |].
  split; [apply (Hgone eq_refl); discriminate |].
  refine (Hone eq_refl _ _ "no-such-id" _ _ _ one_counter_lookup _);
    [discriminate | discriminate | discriminate | vm_compute; reflexivity].
Defined.

(** ** Updates of live activities *)

(** The content parser of a kind accepts a payload. *)
Definition parse_succeeds (k : ActivityKind) (content : Dict) : Prop :=
  match k with
  | Counter => ∃ c, ExpoLiveActivitiesModule.parseCounterContent content = Ok c
  | Status => ∃ c, ExpoLiveActivitiesModule.parseStatusContent content = Ok c
  | Progress => ∃ c, ExpoLiveActivitiesModule.parseProgressContent content = Ok c
  end.

(** The handle a host task is addressed to. *)
Definition task_handle (t : HostTask) : option AnyObject :=
  match t with
  | UpdateCounter a _ | EndCounter a _ => Some (CounterRef a)
  | UpdateStatus a _ | EndStatus a _ => Some (StatusRef a)
  | UpdateProgress a _ | EndProgress a _ => Some (ProgressRef a)
  | EndNothing => None
  end.

Definition is_update (t : HostTask) : bool :=
  match t with
  | UpdateCounter _ _ | UpdateStatus _ _ | UpdateProgress _ _ => true
  | _ => false
  end.

(** The required-field table says exactly when a content parser accepts. *)
Lemma required_content_spec k content :
  has_fields (required_content k) content = true ↔ parse_succeeds k content.
Proof.
  destruct k; cbn [required_content has_fields forallb parse_succeeds];
    rewrite andb_true_r;
    unfold ExpoLiveActivitiesModule.parseCounterContent,
      ExpoLiveActivitiesModule.parseStatusContent,
      ExpoLiveActivitiesModule.parseProgressContent, field, has_type;
    (destruct (content !! _) as [v|]; cbn [mbind option_bind];
     [| split; [discriminate | intros [c [=]]]]).
  - destruct (asInt v); split; eauto;
      rewrite ?bool_decide_eq_true; try (intros [? [=]]; fail);
      intros H; exfalso; by inversion H.
  - destruct (asString v); split; eauto;
      rewrite ?bool_decide_eq_true; try (intros [? [=]]; fail);
      intros H; exfalso; by inversion H.
  - destruct (asInt v); split; eauto;
      rewrite ?bool_decide_eq_true; try (intros [? [=]]; fail);
      intros H; exfalso; by inversion H.
Qed.

(** A content parser only ever fails with the invalid-content error. *)
Lemma parse_content_error k content :
  match k with
  | Counter =>
      ∀ e, ExpoLiveActivitiesModule.parseCounterContent content = Err e →
           ∃ m, e = Thrown (invalidContent m)
  | Status =>
      ∀ e, ExpoLiveActivitiesModule.parseStatusContent content = Err e →
           ∃ m, e = Thrown (invalidContent m)
  | Progress =>
      ∀ e, ExpoLiveActivitiesModule.parseProgressContent content = Err e →
           ∃ m, e = Thrown (invalidContent m)
  end.
Proof.
  destruct k;
    unfold ExpoLiveActivitiesModule.parseCounterContent,
      ExpoLiveActivitiesModule.parseStatusContent,
      ExpoLiveActivitiesModule.parseProgressContent;
    intros e; destruct (field _ content _); intros [=]; subst; eauto.
Qed.

(** The update dispatch on a typed handle: the parser and the task of the
    handle's own kind. *)
Lemma updateExistingActivity_typed id content st o k r st' :
  activeActivities st !! id = Some o → typed_as k o →
  ExpoLiveActivitiesModule.updateExistingActivity id content st = (r, st') →
  (parse_succeeds k content ∧ r = Ok tt ∧
   activeActivities st' = activeActivities st ∧
   ∃ t, launched st' = t :: launched st ∧
        taskKind t = Some k ∧ task_handle t = Some o ∧ is_update t = true) ∨
  (¬ parse_succeeds k content ∧ st' = st ∧
   ∃ m, r = Err (Thrown (invalidContent m))).
Proof.
  intros Hlook Hk. unfold ExpoLiveActivitiesModule.updateExistingActivity.
  rewrite Hlook.
  destruct o as [a|a|a|tag], k; cbn in Hk; try (by destruct Hk as [? [=]]);
    cbn [asCounterActivity asStatusActivity asProgressActivity parse_succeeds];
    unfold_monad.
  - pose proof (parse_content_error Counter content) as Herr. cbn in Herr.
    destruct (ExpoLiveActivitiesModule.parseCounterContent content) as [c|e];
      intros [= <- <-].
    + left. cbn. eauto 10.
    + right. destruct (Herr e eq_refl) as [m ->].
      split; [by intros [? [=]] | eauto].
  - pose proof (parse_content_error Status content) as Herr. cbn in Herr.
    destruct (ExpoLiveActivitiesModule.parseStatusContent content) as [c|e];
      intros [= <- <-].
    + left. cbn. eauto 10.
    + right. destruct (Herr e eq_refl) as [m ->].
      split; [by intros [? [=]] | eauto].
  - pose proof (parse_content_error Progress content) as Herr. cbn in Herr.
    destruct (ExpoLiveActivitiesModule.parseProgressContent content) as [c|e];
      intros [= <- <-].
    + left. cbn. eauto 10.
    + right. destruct (Herr e eq_refl) as [m ->].
      split; [by intros [? [=]] | eauto].
Qed.

(** C8. For every live activity (an entry of the registry in a state
    reached through the API) and every content record that has the
    required content fields of the activity's kind, [updateActivity]
    succeeds, whatever else the record holds or lacks: no attribute is
    asked for.  The registry afterwards is the registry before, so the
    handle and its attributes are untouched, and the one task launched is
    an update addressed to that handle. *)
Theorem update_replaces_content_only (h : Host) (st : ModuleState)
    (id : string) (o : AnyObject) (k : ActivityKind) (content : Dict) :
  reachable h st →
  activeActivities st !! id = Some o → typed_as k o →
  has_fields (required_content k) content = true →
  ∃ t, updateActivity h (JsString id) (JsObject content) st
       = (Ok tt, {| activeActivities := activeActivities st;
                    launched := t :: launched st |}) ∧
       taskKind t = Some k ∧ task_handle t = Some o ∧ is_update t = true.
Proof.
  intros Hreach Hlook Hk Hreq. apply reachable_wf in Hreach as Hwf.
  destruct (Hwf _ _ Hlook) as (Hs & _ & _).
  pose proof (wf_nonempty_id _ _ _ _ Hwf Hlook) as Hne.
  apply required_content_spec in Hreq.
  rewrite updateActivity_supported by done.
  destruct (ExpoLiveActivitiesModule.updateExistingActivity id content st)
    as [r st'] eqn:Hupd.
  apply (updateExistingActivity_typed _ _ _ _ _ _ _ Hlook Hk) in Hupd
    as [(_ & -> & Hreg & t & Hl & Ht) | (Hno & _)]; [| done].
  exists t. split; [| done]. destruct st' as [reg' l']. cbn in *. by subst.
Qed.

Lemma update_replaces_content_only_witness :
  typed_as Counter counter_1 ∧
  has_fields (required_content Counter)
    (list_to_map [("value", int 5); ("status", str "s")]) = true ∧
  ∃ t, updateActivity iPhone_16_1 (JsString (activityId info_1))
         (obj [("value", int 5); ("status", str "s")]) one_counter
       = (Ok tt, {| activeActivities := activeActivities one_counter;
                    launched := t :: launched one_counter |}) ∧
       taskKind t = Some Counter ∧ task_handle t = Some counter_1 ∧
       is_update t = true ∧ handle_title counter_1 = Some "T".
Proof.
  assert (typed_as Counter counter_1) as Hk by (cbn; eauto).
  assert (has_fields (required_content Counter)
            (list_to_map [("value", int 5); ("status", str "s")]) = true)
    as Hreq by (vm_compute; reflexivity).
  split; [exact Hk |]. split; [exact Hreq |].
  destruct (update_replaces_content_only iPhone_16_1 one_counter
              (activityId info_1) counter_1 Counter _
              one_counter_reachable one_counter_lookup Hk Hreq)
    as (t & Hrun & Hkind & Hhandle & Hupd).
  exists t. repeat split; assumption.
Defined.

(** ** The kind of a live instance *)

(** The message each content parser throws with. *)
Definition content_message (k : ActivityKind) : string :=
  match k with
  | Counter => "Missing 'value' for CounterActivity"
  | Status => "Missing 'status' for StatusActivity"
  | Progress => "Missing 'current' for ProgressActivity"
  end.

Lemma has_typed_field_string (dict : Dict) key :
  match dict !! key with
  | Some v => has_type TString v
  | None => false
  end = bool_decide (is_Some (field asString dict key)).
Proof.
  unfold field, has_type. by destruct (dict !! key) as [v|].
Qed.

Lemma has_typed_field_int (dict : Dict) key :
  match dict !! key with
  | Some v => has_type TInt v
  | None => false
  end = bool_decide (is_Some (field asInt dict key)).
Proof.
  unfold field, has_type. by destruct (dict !! key) as [v|].
Qed.

Lemma bool_decide_is_Some_Some {A} (x : A) :
  bool_decide (is_Some (Some x)) = true.
Proof. apply bool_decide_eq_true. eauto. Qed.

Lemma bool_decide_is_Some_None {A} :
  bool_decide (is_Some (@None A)) = false.
Proof. apply bool_decide_eq_false. by intros [? ?]. Qed.

(** C9. Along every history of calls, each id in the registry holds a
    handle of the kind its last successful create was asked for, and the
    update and end dispatch on that id resolve to that kind.  The update
    runs that kind's content parser: when the payload has that kind's
    required content fields it launches that kind's update task on the
    registered handle with the parsed content, and when it has not it
    fails with that kind's invalid-content error and changes nothing.
    The end launches that kind's end task on the registered handle with
    the given policy and removes the entry.  The unknown-type branch of
    the update dispatch is never taken. *)
Theorem kind_is_fixed_at_creation (h : Host)
    (log : list (Call * Result JsError Outcome)) (st : ModuleState)
    (id : string) (o : AnyObject) :
  history h log st →
  activeActivities st !! id = Some o →
  ∃ k, created_as log !! id = Some (kindName k) ∧ typed_as k o ∧
       (∀ content,
          has_fields (required_content k) content = true →
          ∃ t, ExpoLiveActivitiesModule.updateExistingActivity id content st
               = (Ok tt, {| activeActivities := activeActivities st;
                            launched := t :: launched st |}) ∧
               taskKind t = Some k ∧ task_handle t = Some o ∧
               is_update t = true) ∧
       (∀ content,
          has_fields (required_content k) content = false →
          ExpoLiveActivitiesModule.updateExistingActivity id content st
          = (Err (Thrown (invalidContent (content_message k))), st)) ∧
       match o with
       | CounterRef a =>
           k = Counter ∧
           (∀ content c,
              ExpoLiveActivitiesModule.parseCounterContent content = Ok c →
              ExpoLiveActivitiesModule.updateExistingActivity id content st
              = (Ok tt, {| activeActivities := activeActivities st;
                           launched := UpdateCounter a c :: launched st |})) ∧
           (∀ policy,
              ExpoLiveActivitiesModule.endExistingActivity id policy st
              = (Ok tt, {| activeActivities := delete id (activeActivities st);
                           launched := EndCounter a policy :: launched st |}))
       | StatusRef a =>
           k = Status ∧
           (∀ content c,
              ExpoLiveActivitiesModule.parseStatusContent content = Ok c →
              ExpoLiveActivitiesModule.updateExistingActivity id content st
              = (Ok tt, {| activeActivities := activeActivities st;
                           launched := UpdateStatus a c :: launched st |})) ∧
           (∀ policy,
              ExpoLiveActivitiesModule.endExistingActivity id policy st
              = (Ok tt, {| activeActivities := delete id (activeActivities st);
                           launched := EndStatus a policy :: launched st |}))
       | ProgressRef a =>
           k = Progress ∧
           (∀ content c,
              ExpoLiveActivitiesModule.parseProgressContent content = Ok c →
              ExpoLiveActivitiesModule.updateExistingActivity id content st
              = (Ok tt, {| activeActivities := activeActivities st;
                           launched := UpdateProgress a c :: launched st |})) ∧
           (∀ policy,
              ExpoLiveActivitiesModule.endExistingActivity id policy st
              = (Ok tt, {| activeActivities := delete id (activeActivities st);
                           launched := EndProgress a policy :: launched st |}))
       | ForeignRef _ => False
       end ∧
       (∀ policy,
          taskKind (ExpoLiveActivitiesModule.endTask o policy) = Some k ∧
          task_handle (ExpoLiveActivitiesModule.endTask o policy) = Some o) ∧
       (∀ content message,
          fst (ExpoLiveActivitiesModule.updateExistingActivity id content st)
          ≠ Err (Thrown (unknownType message))).
Proof.
  intros Hhist Hlook.
  destruct (history_tracked _ _ _ Hhist) as (_ & _ & Hkind).
  destruct (Hkind _ _ Hlook) as (k & Hcreated & Hk).
  exists k. split; [done |]. split; [done |].
  assert (∀ content,
            has_fields (required_content k) content = false →
            ExpoLiveActivitiesModule.updateExistingActivity id content st
            = (Err (Thrown (invalidContent (content_message k))), st))
    as Hmissing.
  { intros content Hreq.
    unfold ExpoLiveActivitiesModule.updateExistingActivity. rewrite Hlook.
    destruct o as [a|a|a|tag], k; cbn in Hk;
      try (by destruct Hk as [? [=]]);
      cbn [asCounterActivity asStatusActivity asProgressActivity
           required_content has_fields forallb content_message] in *;
      rewrite ?has_typed_field_string, ?has_typed_field_int, ?andb_true_r
        in Hreq;
      unfold ExpoLiveActivitiesModule.parseCounterContent,
        ExpoLiveActivitiesModule.parseStatusContent,
        ExpoLiveActivitiesModule.parseProgressContent;
      unfold_monad;
      match goal with
      | |- context [field ?c content ?key] => destruct (field c content key)
      end;
      rewrite ?bool_decide_is_Some_Some in Hreq; done. }
  assert (∀ content,
            has_fields (required_content k) content = true →
            ∃ t, ExpoLiveActivitiesModule.updateExistingActivity id content st
                 = (Ok tt, {| activeActivities := activeActivities st;
                              launched := t :: launched st |}) ∧
                 taskKind t = Some k ∧ task_handle t = Some o ∧
                 is_update t = true) as Hpresent.
  { intros content Hreq.
    unfold ExpoLiveActivitiesModule.updateExistingActivity. rewrite Hlook.
    destruct o as [a|a|a|tag], k; cbn in Hk;
      try (by destruct Hk as [? [=]]);
      cbn [asCounterActivity asStatusActivity asProgressActivity
           required_content has_fields forallb] in *;
      rewrite ?has_typed_field_string, ?has_typed_field_int, ?andb_true_r
        in Hreq;
      unfold ExpoLiveActivitiesModule.parseCounterContent,
        ExpoLiveActivitiesModule.parseStatusContent,
        ExpoLiveActivitiesModule.parseProgressContent;
      unfold_monad;
      match goal with
      | |- context [field ?c content ?key] => destruct (field c content key)
      end;
      rewrite ?bool_decide_is_Some_None in Hreq; try done;
      (eexists; split; [reflexivity | done]). }
  split; [exact Hpresent |]. split; [exact Hmissing |].
  split; [| split].
  - destruct o as [a|a|a|tag], k; cbn in Hk;
      try (by destruct Hk as [? [=]]);
      (split; [done |]); split;
      try (intros content c Hparse;
           unfold ExpoLiveActivitiesModule.updateExistingActivity;
           rewrite Hlook;
           cbn [asCounterActivity asStatusActivity asProgressActivity];
           unfold_monad; by rewrite Hparse);
      intros policy; by rewrite (endExistingActivity_found _ _ _ _ Hlook).
  - intros policy.
    destruct o as [a|a|a|tag], k; cbn in Hk;
      try (by destruct Hk as [? [=]]); done.
  - intros content message.
    destruct (has_fields (required_content k) content) eqn:Hreq.
    + destruct (Hpresent content Hreq) as (t & -> & _). discriminate.
    + rewrite (Hmissing content Hreq). discriminate.
Qed.

Lemma kind_is_fixed_at_creation_witness :
  ∃ k, created_as [(start_1, Ok (Started info_1))] !! activityId info_1
       = Some (kindName k) ∧
       k = Counter ∧
       ExpoLiveActivitiesModule.updateExistingActivity (activityId info_1)
         (list_to_map [("status", str "packed")]) one_counter
       = (Err (Thrown (invalidContent "Missing 'value' for CounterActivity")),
          one_counter) ∧
       (∀ policy,
          taskKind (ExpoLiveActivitiesModule.endTask counter_1 policy) = Some k) ∧
       ∀ content message,
         fst (ExpoLiveActivitiesModule.updateExistingActivity
                (activityId info_1) content one_counter)
         ≠ Err (Thrown (unknownType message)).
Proof.
  destruct (kind_is_fixed_at_creation iPhone_16_1 _ one_counter
              (activityId info_1) counter_1
              one_counter_history one_counter_lookup)
    as (k & Hcreated & Hk & _ & Hmissing & Hexact & Hend & Hnever).
  cbn [counter_1] in Hexact. destruct Hexact as (-> & _ & _).
  exists Counter. split; [exact Hcreated |]. split; [reflexivity |].
  split; [apply (Hmissing (list_to_map [("status", str "packed")]));
          vm_compute; reflexivity |].
  split; [exact (λ policy, proj1 (Hend policy)) | exact Hnever].
Defined.

(** ** Absent payloads *)

(** C10. A null or undefined [attributes] or [contentState] reaches the
    bridge as the empty record: the call returns what the same call with
    [{}] returns.  So on a supported host
    [startActivity("CounterActivity", null, null)] fails with the
    invalid-attributes error for the missing [title], and
    [updateActivity(id, null)] on a live counter fails with the
    invalid-content error for the missing [value]; neither changes the
    state. *)
Theorem absent_payload_is_the_empty_record (h : Host) (st : ModuleState) :
  (∀ amb ty absent other,
     absent = JsNull ∨ absent = JsUndefined →
     startActivity h amb ty absent other st
     = startActivity h amb ty (JsObject ∅) other st ∧
     startActivity h amb ty other absent st
     = startActivity h amb ty other (JsObject ∅) st) ∧
  (∀ id absent,
     absent = JsNull ∨ absent = JsUndefined →
     updateActivity h id absent st = updateActivity h id (JsObject ∅) st) ∧
  (isSupported h = true →
   ∀ amb,
     startActivity h amb (JsString "CounterActivity") JsNull JsNull st
     = (Err (start_error
               (Thrown (invalidAttributes
                          "Missing 'title' for CounterActivity"))), st)) ∧
  (reachable h st →
   ∀ id a,
     activeActivities st !! id = Some (CounterRef a) →
     updateActivity h (JsString id) JsNull st
     = (Err (update_error
               (Thrown (invalidContent
                          "Missing 'value' for CounterActivity"))), st)).
Proof.
  split; [| split; [| split]].
  - intros amb ty absent other [-> | ->]; split; reflexivity.
  - intros id absent [-> | ->]; reflexivity.
  - intros Hs amb.
    change (startActivity h amb (JsString "CounterActivity") JsNull JsNull st)
      with (startActivity h amb (JsString "CounterActivity") (JsObject ∅)
              (JsObject ∅) st).
    by apply start_Counter_without_title.
  - intros Hreach id a Hlook. apply reachable_wf in Hreach as Hwf.
    destruct (Hwf _ _ Hlook) as (Hs & _ & _).
    pose proof (wf_nonempty_id _ _ _ _ Hwf Hlook) as Hne.
    change (updateActivity h (JsString id) JsNull st)
      with (updateActivity h (JsString id) (JsObject ∅) st).
    rewrite updateActivity_supported by done.
    unfold ExpoLiveActivitiesModule.updateExistingActivity.
    rewrite Hlook. reflexivity.
Qed.

Lemma absent_payload_is_the_empty_record_witness :
  isSupported iPhone_16_1 = true ∧
  startActivity iPhone_16_1 ambient_2 (JsString "CounterActivity") JsNull
    JsNull one_counter
  = (Err (start_error
            (Thrown (invalidAttributes "Missing 'title' for CounterActivity"))),
     one_counter) ∧
  updateActivity iPhone_16_1 (JsString (activityId info_1)) JsNull one_counter
  = (Err (update_error
            (Thrown (invalidContent "Missing 'value' for CounterActivity"))),
     one_counter) ∧
  updateActivity iPhone_16_1 (JsString (activityId info_1)) JsUndefined
    one_counter
  = updateActivity iPhone_16_1 (JsString (activityId info_1)) (JsObject ∅)
      one_counter.
Proof.
  destruct (absent_payload_is_the_empty_record iPhone_16_1 one_counter)
    as (_ & Hundef & Hstart & Hupdate).
  split; [reflexivity |]. split; [exact (Hstart eq_refl ambient_2) |].
  split; [| exact (Hundef _ JsUndefined (or_intror eq_refl))].
  exact (Hupdate one_counter_reachable _ _ one_counter_lookup).
Defined.

(** * Further properties of the bridge and the facade *)

(** ** The outcome of a create *)

(** The fields the [guard let] of each attribute parser insists on. *)
Definition required_attributes (k : ActivityKind) : list (string * FieldType) :=
  match k with
  | Counter => [("title", TString)]
  | Status => [("identifier", TString); ("title", TString)]
  | Progress => [("title", TString); ("total", TInt)]
  end.

(** The messages the parsers throw with. *)
Definition attributes_message (k : ActivityKind) : string :=
  match k with
  | Counter => "Missing 'title' for CounterActivity"
  | Status => "Missing 'identifier' or 'title' for StatusActivity"
  | Progress => "Missing 'title' or 'total' for ProgressActivity"
  end.

(** The handle a create of kind [k] requests from the host for a pair of
    payloads both parsers accept. *)
Definition handle_of (k : ActivityKind) (attrs content : Dict)
  : option AnyObject :=
  match k with
  | Counter =>
      match ExpoLiveActivitiesModule.parseCounterAttributes attrs,
            ExpoLiveActivitiesModule.parseCounterContent content with
      | Ok a, Ok c => Some (CounterRef (mkActivity a c))
      | _, _ => None
      end
  | Status =>
      match ExpoLiveActivitiesModule.parseStatusAttributes attrs,
            ExpoLiveActivitiesModule.parseStatusContent content with
      | Ok a, Ok c => Some (StatusRef (mkActivity a c))
      | _, _ => None
      end
  | Progress =>
      match ExpoLiveActivitiesModule.parseProgressAttributes attrs,
            ExpoLiveActivitiesModule.parseProgressContent content with
      | Ok a, Ok c => Some (ProgressRef (mkActivity a c))
      | _, _ => None
      end
  end.

Lemma createActivity_kindName amb id k attrs content st :
  ExpoLiveActivitiesModule.createActivity amb id (kindName k) attrs content st
  = match k with
    | Counter =>
        ExpoLiveActivitiesModule.createCounterActivity amb id attrs content st
    | Status =>
        ExpoLiveActivitiesModule.createStatusActivity amb id attrs content st
    | Progress =>
        ExpoLiveActivitiesModule.createProgressActivity amb id attrs content st
    end.
Proof.
  destruct k; cbn [kindName].
  - apply createActivity_Counter.
  - apply createActivity_Status.
  - apply createActivity_Progress.
Qed.

(** The ways a create of a registered kind can go, in the order the code
    tries them: attributes, content, the host's answer, the store. *)
Lemma createActivity_outcome amb id k attrs content st :
  let r := ExpoLiveActivitiesModule.createActivity amb id (kindName k) attrs
             content st in
  (has_fields (required_attributes k) attrs = false ∧
   r = (Err (Thrown (invalidAttributes (attributes_message k))), st)) ∨
  (has_fields (required_attributes k) attrs = true ∧
   has_fields (required_content k) content = false ∧
   r = (Err (Thrown (invalidContent (content_message k))), st)) ∨
  (has_fields (required_attributes k) attrs = true ∧
   has_fields (required_content k) content = true ∧
   ∃ o, handle_of k attrs content = Some o ∧ typed_as k o ∧
        r = match request_rejected amb with
            | Some message => (Err (HostThrown message), st)
            | None =>
                (Ok tt,
                 {| activeActivities := <[id := o]> (activeActivities st);
                    launched := launched st |})
            end).
Proof.
  cbn zeta. rewrite createActivity_kindName.
  destruct k;
    cbn [required_attributes required_content has_fields forallb
         attributes_message content_message handle_of];
    rewrite ?has_typed_field_string, ?has_typed_field_int, ?andb_true_r;
    unfold ExpoLiveActivitiesModule.createCounterActivity,
      ExpoLiveActivitiesModule.createStatusActivity,
      ExpoLiveActivitiesModule.createProgressActivity,
      ExpoLiveActivitiesModule.parseCounterAttributes,
      ExpoLiveActivitiesModule.parseCounterContent,
      ExpoLiveActivitiesModule.parseStatusAttributes,
      ExpoLiveActivitiesModule.parseStatusContent,
      ExpoLiveActivitiesModule.parseProgressAttributes,
      ExpoLiveActivitiesModule.parseProgressContent,
      ExpoLiveActivitiesModule.request;
    unfold_monad.
  - destruct (field asString attrs "title");
      rewrite ?bool_decide_is_Some_Some, ?bool_decide_is_Some_None; cbn;
      [| by left].
    destruct (field asInt content "value");
      rewrite ?bool_decide_is_Some_Some, ?bool_decide_is_Some_None; cbn;
      [| by right; left].
    right; right. do 2 (split; [done |]). eexists. split; [done |].
    split; [cbn; eauto |]. by destruct (request_rejected amb).
  - destruct (field asString attrs "identifier"),
      (field asString attrs "title");
      rewrite ?bool_decide_is_Some_Some, ?bool_decide_is_Some_None; cbn;
      try (by left).
    destruct (field asString content "status");
      rewrite ?bool_decide_is_Some_Some, ?bool_decide_is_Some_None; cbn;
      [| by right; left].
    right; right. do 2 (split; [done |]). eexists. split; [done |].
    split; [cbn; eauto |]. by destruct (request_rejected amb).
  - destruct (field asString attrs "title"), (field asInt attrs "total");
      rewrite ?bool_decide_is_Some_Some, ?bool_decide_is_Some_None; cbn;
      try (by left).
    destruct (field asInt content "current");
      rewrite ?bool_decide_is_Some_Some, ?bool_decide_is_Some_None; cbn;
      [| by right; left].
    right; right. do 2 (split; [done |]). eexists. split; [done |].
    split; [cbn; eauto |]. by destruct (request_rejected amb).
Qed.

Lemma catalog_spec (kind : string) :
  kind ∈ catalog ↔ ∃ k, kind = kindName k.
Proof.
  unfold catalog. cbn [map kindName]. split.
  - intros Hin. repeat (apply elem_of_cons in Hin as [-> | Hin]);
      [by exists Counter | by exists Status | by exists Progress |].
    by apply elem_of_nil in Hin.
  - intros [[] ->]; cbn [kindName]; set_solver.
Qed.

Lemma kindName_nonempty (k : ActivityKind) : kindName k ≠ "".
Proof. by destruct k. Qed.

(** ** Starting an activity *)

(** X1. On a supported host a start with a non-empty kind string and record
    payloads succeeds exactly when the kind is one of the three registered
    names, the attributes and the content carry the required fields of
    that kind with their types, and the host accepts the request. *)
Theorem start_succeeds_exactly_when (h : Host) (amb : Ambient) (kind : string)
    (attrs content : Dict) (st : ModuleState) :
  isSupported h = true → kind ≠ "" →
  ((∃ info st',
      startActivity h amb (JsString kind) (JsObject attrs) (JsObject content) st
      = (Ok info, st')) ↔
   ∃ k, kind = kindName k ∧
        has_fields (required_attributes k) attrs = true ∧
        has_fields (required_content k) content = true ∧
        request_rejected amb = None).
Proof.
  intros Hs Hne. rewrite startActivity_supported by done. split.
  - intros (info & st' & Hrun).
    destruct (decide (kind ∈ catalog)) as [Hin | Hout];
      [| by rewrite createActivity_unknown in Hrun].
    apply catalog_spec in Hin as [k ->]. exists k. split; [done |].
    destruct (createActivity_outcome amb (uuidString (fresh_uuid amb)) k
                attrs content st)
      as [(_ & Hr) | [(_ & _ & Hr) | (Ha & Hc & o & _ & _ & Hr)]];
      cbn zeta in Hr; rewrite Hr in Hrun; try done.
    by destruct (request_rejected amb).
  - intros (k & -> & Ha & Hc & Hhost).
    destruct (createActivity_outcome amb (uuidString (fresh_uuid amb)) k
                attrs content st)
      as [(Ha' & _) | [(_ & Hc' & _) | (_ & _ & o & _ & _ & Hr)]];
      [congruence | congruence |].
    cbn zeta in Hr. rewrite Hr, Hhost. eauto.
Qed.

Lemma start_succeeds_exactly_when_witness :
  isSupported iPhone_16_1 = true ∧
  (∃ info st',
     startActivity iPhone_16_1 ambient_2 (JsString "ProgressActivity")
       (obj [("title", str "Upload"); ("total", int 40)])
       (obj [("current", int 3)]) one_counter
     = (Ok info, st')) ∧
  ¬ (∃ info st',
       startActivity iPhone_16_1 ambient_2 (JsString "ProgressActivity")
         (obj [("title", str "Upload"); ("total", str "forty")])
         (obj [("current", int 3)]) one_counter
       = (Ok info, st')).
Proof.
  assert ("ProgressActivity" ≠ "") as Hne by discriminate.
  split; [reflexivity |]. split.
  - apply (start_succeeds_exactly_when iPhone_16_1 ambient_2
             "ProgressActivity" _ _ one_counter eq_refl Hne).
    exists Progress. repeat split; vm_compute; reflexivity.
  - intros Hok.
    apply (start_succeeds_exactly_when iPhone_16_1 ambient_2
             "ProgressActivity" _ _ one_counter eq_refl Hne) in Hok
      as (k & Hk & Ha & _).
    destruct k; try discriminate Hk. vm_compute in Ha. discriminate Ha.
Defined.

(** X2. A failing create reports the first check that fails, in the order
    attributes, content, host: invalid attributes hide invalid content,
    and the host is only asked once both payloads parse.  A host rejection
    surfaces with the host's own message.  None of the failures changes
    the state. *)
Theorem start_reports_the_first_failure (h : Host) (amb : Ambient)
    (k : ActivityKind) (attrs content : Dict) (st : ModuleState) :
  isSupported h = true →
  (has_fields (required_attributes k) attrs = false →
   startActivity h amb (JsString (kindName k)) (JsObject attrs)
     (JsObject content) st
   = (Err (start_error (Thrown (invalidAttributes (attributes_message k)))),
      st)) ∧
  (has_fields (required_attributes k) attrs = true →
   has_fields (required_content k) content = false →
   startActivity h amb (JsString (kindName k)) (JsObject attrs)
     (JsObject content) st
   = (Err (start_error (Thrown (invalidContent (content_message k)))), st)) ∧
  (has_fields (required_attributes k) attrs = true →
   has_fields (required_content k) content = true →
   ∀ message, request_rejected amb = Some message →
   startActivity h amb (JsString (kindName k)) (JsObject attrs)
     (JsObject content) st
   = (Err (ErrorOfNative "Failed to start activity: "
             (NativeError (startFailed message))), st)).
Proof.
  intros Hs.
  pose proof (kindName_nonempty k) as Hne.
  rewrite startActivity_supported by done.
  destruct (createActivity_outcome amb (uuidString (fresh_uuid amb)) k
              attrs content st)
    as [(Ha & Hr) | [(Ha & Hc & Hr) | (Ha & Hc & o & _ & _ & Hr)]];
    cbn zeta in Hr; rewrite Hr; repeat split; try congruence.
  intros _ _ message Hhost. by rewrite Hhost.
Qed.

Lemma start_reports_the_first_failure_witness :
  isSupported iPhone_16_1 = true ∧
  startActivity iPhone_16_1 ambient_2 (JsString "StatusActivity")
    (obj [("title", str "Order")]) (obj [("progress", int 10)]) one_counter
  = (Err (start_error
            (Thrown (invalidAttributes
                       "Missing 'identifier' or 'title' for StatusActivity"))),
     one_counter) ∧
  startActivity iPhone_16_1 ambient_2 (JsString "StatusActivity")
    (obj [("identifier", str "A1"); ("title", str "Order")])
    (obj [("progress", int 10)]) one_counter
  = (Err (start_error
            (Thrown (invalidContent "Missing 'status' for StatusActivity"))),
     one_counter) ∧
  startActivity iPhone_16_1
    {| fresh_uuid := mkUUID 1 1 1 1 1; now := NumInt 0;
       request_rejected := Some "Live Activities are disabled" |}
    (JsString "StatusActivity")
    (obj [("identifier", str "A1"); ("title", str "Order")])
    (obj [("status", str "packed")]) one_counter
  = (Err (ErrorOfNative "Failed to start activity: "
            (NativeError (startFailed "Live Activities are disabled"))),
     one_counter).
Proof.
  split; [reflexivity |]. split; [| split].
  - apply (proj1 (start_reports_the_first_failure iPhone_16_1 ambient_2
                    Status _ _ one_counter eq_refl)).
    vm_compute. reflexivity.
  - apply (proj1 (proj2 (start_reports_the_first_failure iPhone_16_1
                           ambient_2 Status _ _ one_counter eq_refl)));
      vm_compute; reflexivity.
  - apply (proj2 (proj2 (start_reports_the_first_failure iPhone_16_1
                           _ Status _ _ one_counter eq_refl)));
      vm_compute; reflexivity.
Defined.

(** X3. A start that succeeds returns the generated id, the kind name it was
    given and the wall-clock time; it stores under that id the handle
    built from the two parsed payloads, touches no other entry of the
    registry and launches no task. *)
Theorem start_registers_the_parsed_payload (h : Host) (amb : Ambient)
    (kind : string) (attrs content : Dict) (st st' : ModuleState)
    (info : ActivityInfo) :
  startActivity h amb (JsString kind) (JsObject attrs) (JsObject content) st
  = (Ok info, st') →
  info = {| activityId := uuidString (fresh_uuid amb);
            activityType := kind;
            startTime := now amb |} ∧
  ∃ k o, kind = kindName k ∧ handle_of k attrs content = Some o ∧
         handle_title o = field asString attrs "title" ∧
         st' = {| activeActivities :=
                    <[activityId info := o]> (activeActivities st);
                  launched := launched st |}.
Proof.
  intros Hrun.
  destruct (isSupported h) eqn:Hs;
    [| unfold startActivity in Hrun; rewrite Hs in Hrun; discriminate Hrun].
  destruct (decide (kind = "")) as [-> | Hne];
    [unfold startActivity in Hrun; rewrite Hs in Hrun; discriminate Hrun |].
  rewrite startActivity_supported in Hrun by done.
  destruct (decide (kind ∈ catalog)) as [Hin | Hout];
    [| by rewrite createActivity_unknown in Hrun].
  apply catalog_spec in Hin as [k ->].
  destruct (createActivity_outcome amb (uuidString (fresh_uuid amb)) k
              attrs content st)
    as [(_ & Hr) | [(_ & _ & Hr) | (Ha & Hc & o & Ho & _ & Hr)]];
    cbn zeta in Hr; rewrite Hr in Hrun; try done.
  destruct (request_rejected amb); [done |].
  injection Hrun as <- <-. split; [done |].
  exists k, o. split; [done |]. split; [done |]. split; [| done].
  destruct k; cbn [handle_of] in Ho;
    unfold ExpoLiveActivitiesModule.parseCounterAttributes,
      ExpoLiveActivitiesModule.parseStatusAttributes,
      ExpoLiveActivitiesModule.parseProgressAttributes in Ho;
    repeat match type of Ho with
           | context [field ?c attrs ?key] =>
               destruct (field c attrs key) eqn:?
           end;
    repeat match type of Ho with
           | context [match ?x with Ok _ => _ | Err _ => _ end] =>
               destruct x
           end;
    try discriminate Ho; injection Ho as <-; cbn; congruence.
Qed.

Lemma start_registers_the_parsed_payload_witness :
  info_1 = {| activityId := uuidString (fresh_uuid ambient_1);
              activityType := "CounterActivity";
              startTime := now ambient_1 |} ∧
  ∃ k o, "CounterActivity" = kindName k ∧
         handle_of k (list_to_map [("title", str "T")])
           (list_to_map [("value", int 10)]) = Some o ∧
         handle_title o
         = field asString (list_to_map [("title", str "T")]) "title" ∧
         one_counter
         = {| activeActivities :=
                <[activityId info_1 := o]> (activeActivities initial);
              launched := launched initial |}.
Proof.
  exact (start_registers_the_parsed_payload iPhone_16_1 ambient_1
           "CounterActivity" _ _ initial one_counter info_1
           one_counter_started).
Defined.

(** ** Tolerant readers *)

(** The fields each parser looks at, required and optional. *)
Definition attribute_fields (k : ActivityKind) : list string :=
  match k with
  | Counter => ["title"; "color"]
  | Status => ["identifier"; "title"]
  | Progress => ["title"; "total"; "unit"]
  end.

Definition content_fields (k : ActivityKind) : list string :=
  match k with
  | Counter => ["value"; "status"]
  | Status => ["status"; "progress"; "details"; "timestamp"]
  | Progress => ["current"; "description"; "percentage"]
  end.

Definition agree_on (keys : list string) (d1 d2 : Dict) : Prop :=
  Forall (λ key, d1 !! key = d2 !! key) keys.

Ltac use_agreement :=
  repeat match goal with
         | H : agree_on _ _ _ |- _ => unfold agree_on in H
         | H : Forall _ (_ :: _) |- _ =>
             apply Forall_cons in H as [? H]
         | H : Forall _ [] |- _ => clear H
         end.

Lemma field_agree {T} (cast : AnyValue → option T) (d1 d2 : Dict) key :
  d1 !! key = d2 !! key → field cast d1 key = field cast d2 key.
Proof. unfold field. by intros ->. Qed.

(** X4. Payloads are read through the fields of the kind's schema only: two
    attribute records that agree on the kind's attribute fields, and two
    content records that agree on its content fields, give the same start
    (result and state) and the same update of a handle of that kind.  In
    particular a field the schema does not name can be added, changed or
    removed without any effect. *)
Theorem payloads_are_read_through_the_schema (h : Host) (amb : Ambient)
    (k : ActivityKind) (a1 a2 c1 c2 : Dict) (st : ModuleState) :
  agree_on (attribute_fields k) a1 a2 →
  agree_on (content_fields k) c1 c2 →
  startActivity h amb (JsString (kindName k)) (JsObject a1) (JsObject c1) st
  = startActivity h amb (JsString (kindName k)) (JsObject a2) (JsObject c2) st ∧
  (∀ id o, activeActivities st !! id = Some o → typed_as k o →
           updateActivity h (JsString id) (JsObject c1) st
           = updateActivity h (JsString id) (JsObject c2) st) ∧
  (∀ key v, key ∉ attribute_fields k →
            agree_on (attribute_fields k) (<[key := v]> a1) a1) ∧
  (∀ key v, key ∉ content_fields k →
            agree_on (content_fields k) (<[key := v]> c1) c1).
Proof.
  intros Ha Hc.
  assert (∀ keys key v (d : Dict),
            key ∉ keys → agree_on keys (<[key := v]> d) d) as Hextra.
  { intros keys key v d Hnot. apply Forall_forall. intros x Hx.
    apply lookup_insert_ne. intros ->. done. }
  split; [| split; [| split]]; [| | by auto | by auto].
  - destruct (isSupported h) eqn:Hs;
      [| unfold startActivity; by rewrite Hs].
    pose proof (kindName_nonempty k) as Hne.
    rewrite !startActivity_supported by done.
    rewrite !createActivity_kindName.
    destruct k; cbn [attribute_fields content_fields] in *; use_agreement;
      unfold ExpoLiveActivitiesModule.createCounterActivity,
        ExpoLiveActivitiesModule.createStatusActivity,
        ExpoLiveActivitiesModule.createProgressActivity,
        ExpoLiveActivitiesModule.parseCounterAttributes,
        ExpoLiveActivitiesModule.parseCounterContent,
        ExpoLiveActivitiesModule.parseStatusAttributes,
        ExpoLiveActivitiesModule.parseStatusContent,
        ExpoLiveActivitiesModule.parseProgressAttributes,
        ExpoLiveActivitiesModule.parseProgressContent;
      repeat match goal with
             | H : ?d1 !! ?key = ?d2 !! ?key |- _ =>
                 rewrite !(field_agree _ d1 d2 key H); clear H
             end;
      reflexivity.
  - intros id o Hlook Hk.
    destruct (isSupported h) eqn:Hs;
      [| unfold updateActivity; by rewrite Hs].
    destruct (decide (id = "")) as [-> | Hne]; [reflexivity |].
    rewrite !updateActivity_supported by done.
    unfold ExpoLiveActivitiesModule.updateExistingActivity. rewrite Hlook.
    destruct o as [a|a|a|tag], k; cbn in Hk;
      try (by destruct Hk as [? [=]]);
      cbn [asCounterActivity asStatusActivity asProgressActivity
           content_fields] in *;
      use_agreement;
      unfold ExpoLiveActivitiesModule.parseCounterContent,
        ExpoLiveActivitiesModule.parseStatusContent,
        ExpoLiveActivitiesModule.parseProgressContent;
      repeat match goal with
             | H : ?d1 !! ?key = ?d2 !! ?key |- _ =>
                 rewrite !(field_agree _ d1 d2 key H); clear H
             end;
      reflexivity.
Qed.

Lemma payloads_are_read_through_the_schema_witness :
  startActivity iPhone_16_1 ambient_2 (JsString "CounterActivity")
    (obj [("theme", str "dark"); ("title", str "T")])
    (obj [("value", int 1); ("debug", AnyBool true)]) one_counter
  = startActivity iPhone_16_1 ambient_2 (JsString "CounterActivity")
      (obj [("title", str "T")]) (obj [("value", int 1)]) one_counter ∧
  updateActivity iPhone_16_1 (JsString (activityId info_1))
    (obj [("value", int 1); ("debug", AnyBool true)]) one_counter
  = updateActivity iPhone_16_1 (JsString (activityId info_1))
      (obj [("value", int 1)]) one_counter.
Proof.
  assert (agree_on (attribute_fields Counter)
            (list_to_map [("theme", str "dark"); ("title", str "T")])
            (list_to_map [("title", str "T")])) as Ha
      by (repeat constructor).
  assert (agree_on (content_fields Counter)
            (list_to_map [("value", int 1); ("debug", AnyBool true)])
            (list_to_map [("value", int 1)])) as Hc
      by (repeat constructor).
  destruct (payloads_are_read_through_the_schema iPhone_16_1 ambient_2
              Counter _ _ _ _ one_counter Ha Hc) as (Hstart & Hupdate & _).
  split; [exact Hstart |].
  apply (Hupdate _ _ one_counter_lookup). cbn. eauto.
Defined.

(** ** Dismissal policies *)

(** The [DismissalPolicy] enum of [types.ts] and its string values. *)
Inductive DismissalPolicy := IMMEDIATE | AFTER | DEFAULT.

Definition DismissalPolicy_value (d : DismissalPolicy) : string :=
  match d with
  | IMMEDIATE => "immediate"
  | AFTER => "after"
  | DEFAULT => "default"
  end.

Lemma lowercase_ascii_idempotent (c : ascii) :
  lowercase_ascii (lowercase_ascii c) = lowercase_ascii c.
Proof. destruct c as [[] [] [] [] [] [] [] []]; reflexivity. Qed.

Lemma lowercased_idempotent (s : string) :
  lowercased (lowercased s) = lowercased s.
Proof.
  induction s as [|c s IH]; [done |].
  cbn [lowercased]. by rewrite lowercase_ascii_idempotent, IH.
Qed.

(** X5. Parsing a dismissal policy never fails and looks at the string up to
    ASCII case only: it yields [immediate] exactly for the spellings of
    "immediate", [after] (always three seconds from now) exactly for the
    spellings of "after" on iOS 16.2 or later, and [default] for every
    other string.  The three values of the facade's enum are told apart
    exactly on hosts from iOS 16.2 on. *)
Theorem dismissal_policy_is_parsed_leniently (h : Host) :
  (∀ p, ExpoLiveActivitiesModule.parseDismissalPolicy h (lowercased p)
        = ExpoLiveActivitiesModule.parseDismissalPolicy h p) ∧
  (∀ p, ExpoLiveActivitiesModule.parseDismissalPolicy h p = immediate ↔
        lowercased p = "immediate") ∧
  (∀ p n, ExpoLiveActivitiesModule.parseDismissalPolicy h p = after n ↔
          n = 3%Z ∧ lowercased p = "after" ∧ available h 16 2 = true) ∧
  (∀ p, lowercased p ≠ "immediate" → lowercased p ≠ "after" →
        ExpoLiveActivitiesModule.parseDismissalPolicy h p = default) ∧
  (available h 16 2 = true ↔
   ∀ d1 d2,
     ExpoLiveActivitiesModule.parseDismissalPolicy h (DismissalPolicy_value d1)
     = ExpoLiveActivitiesModule.parseDismissalPolicy h (DismissalPolicy_value d2)
     → d1 = d2).
Proof.
  split; [| split; [| split; [| split]]].
  - intros p. unfold ExpoLiveActivitiesModule.parseDismissalPolicy.
    by rewrite lowercased_idempotent.
  - intros p. unfold ExpoLiveActivitiesModule.parseDismissalPolicy.
    repeat case_decide; destruct (available h 16 2);
      split; intros; congruence.
  - intros p n. unfold ExpoLiveActivitiesModule.parseDismissalPolicy.
    repeat case_decide; destruct (available h 16 2);
      split; try (intros (? & ? & ?)); try intros [= <-]; try congruence; eauto.
  - intros p Hi Ha. unfold ExpoLiveActivitiesModule.parseDismissalPolicy.
    by rewrite !decide_False.
  - unfold ExpoLiveActivitiesModule.parseDismissalPolicy. split.
    + intros Hav [] []; cbn [DismissalPolicy_value lowercased];
        repeat case_decide; rewrite ?Hav; try done.
    + intros Hinj. destruct (available h 16 2) eqn:Hav; [done |].
      specialize (Hinj AFTER DEFAULT).
      cbn [DismissalPolicy_value lowercased] in Hinj.
      rewrite decide_False, decide_True in Hinj by done.
      rewrite !decide_False in Hinj by done.
      by specialize (Hinj eq_refl).
Qed.

Lemma dismissal_policy_is_parsed_leniently_witness :
  ExpoLiveActivitiesModule.parseDismissalPolicy iPhone_17_0 "Immediate"
  = immediate ∧
  ExpoLiveActivitiesModule.parseDismissalPolicy iPhone_16_1 "in a while"
  = default ∧
  ∀ d1 d2,
    ExpoLiveActivitiesModule.parseDismissalPolicy iPhone_17_0
      (DismissalPolicy_value d1)
    = ExpoLiveActivitiesModule.parseDismissalPolicy iPhone_17_0
        (DismissalPolicy_value d2)
    → d1 = d2.
Proof.
  split; [| split].
  - apply (proj1 (proj2 (dismissal_policy_is_parsed_leniently iPhone_17_0))).
    reflexivity.
  - apply (proj1 (proj2 (proj2 (proj2
             (dismissal_policy_is_parsed_leniently iPhone_16_1)))));
      discriminate.
  - apply (proj2 (proj2 (proj2 (proj2
             (dismissal_policy_is_parsed_leniently iPhone_17_0))))).
    reflexivity.
Defined.

(** ** After an end *)

(** The state after a sequence of calls. *)
Definition run (h : Host) (calls : list Call) (st : ModuleState) : ModuleState :=
  foldl (λ s c, snd (perform h c s)) st calls.

(** The call is a start for which the host generates the given id. *)
Definition hands_out (id : string) (c : Call) : Prop :=
  match c with
  | Start amb _ _ _ => uuidString (fresh_uuid amb) = id
  | _ => False
  end.

(** An id that is not registered stays unregistered through any call,
    unless the call is a start for which that very id is generated. *)
Lemma absent_id_stays_absent h id c st :
  isSupported h = true → id ≠ "" → ¬ hands_out id c →
  activeActivities st !! id = None →
  activeActivities (snd (perform h c st)) !! id = None.
Proof.
  intros Hs Hne Hnot Hnone.
  destruct c as [amb ty a cs|i cs|i p| |p]; unfold perform, bind, ret.
  - destruct (startActivity h amb ty a cs st) as [r st'] eqn:Hrun.
    apply startActivity_effect in Hrun
      as [(e & -> & ->) | (_ & k & o & _ & _ & -> & Hreg & _)]; cbn [snd];
      [done |].
    rewrite Hreg, lookup_insert_ne; [done |]. exact Hnot.
  - destruct (updateActivity h i cs st) as [r st'] eqn:Hrun.
    apply updateActivity_effect in Hrun as [Hreg Hcases].
    destruct r; cbn [snd]; by rewrite Hreg.
  - destruct (endActivity h i p st) as [r st'] eqn:Hrun.
    apply endActivity_effect in Hrun
      as [(e & -> & -> & _) | (-> & _ & s & o & _ & _ & _ & Hreg & _)];
      cbn [snd]; [done |].
    rewrite Hreg. destruct (decide (s = id)) as [-> | Hsid].
    + apply lookup_delete_eq.
    + by rewrite lookup_delete_ne.
  - destruct (getAllActivities_total h st) as [ids ->]. done.
  - pose proof (endAllActivities_registry h p st id Hs) as Hreg.
    rewrite bool_decide_eq_false_2 in Hreg by done.
    by destruct (endAllActivities h p st) as [[[]|e] st'].
Qed.

Lemma absent_id_stays_absent_run h id calls st :
  isSupported h = true → id ≠ "" → Forall (λ c, ¬ hands_out id c) calls →
  activeActivities st !! id = None →
  activeActivities (run h calls st) !! id = None.
Proof.
  intros Hs Hne Hcalls. revert st.
  induction Hcalls as [|c calls Hc _ IH]; intros st Hnone; [done |].
  cbn [run foldl]. apply IH. by apply absent_id_stays_absent.
Qed.

(** X6. Once [endActivity] has been called on an id, the id stays ended:
    on a supported host, after any later sequence of calls in which the
    host does not generate that very id again for a start, an update of
    the id and a second end of it fail with the not-found error and
    change nothing. *)
Theorem ended_id_cannot_be_used_again (h : Host) (id : string)
    (policy : option string) (st : ModuleState) (later : list Call) :
  isSupported h = true → id ≠ "" →
  Forall (λ c, ¬ hands_out id c) later →
  let st' := run h later (snd (endActivity h (JsString id) policy st)) in
  (∀ content,
     updateActivity h (JsString id) (JsObject content) st'
     = (Err (update_error (Thrown (notFound id))), st')) ∧
  (∀ policy',
     endActivity h (JsString id) policy' st'
     = (Err (end_error (Thrown (notFound id))), st')).
Proof.
  intros Hs Hne Hlater st'.
  assert (activeActivities st' !! id = None) as Hgone.
  { subst st'. apply absent_id_stays_absent_run; [done | done | done |].
    destruct (endActivity h (JsString id) policy st) as [r s1] eqn:He.
    apply endActivity_effect in He
      as [(e & -> & -> & Habs)
         | (-> & _ & s & o & [= <-] & _ & _ & Hreg & _)]; cbn [snd].
    - by apply Habs.
    - rewrite Hreg. apply lookup_delete_eq. }
  split.
  - intros content. rewrite updateActivity_supported by done.
    by rewrite updateExistingActivity_not_found.
  - intros policy'. rewrite endActivity_supported by done.
    by rewrite endExistingActivity_not_found.
Qed.

(** Calls made after the end of the sample counter: a second activity is
    started under another id, updated and listed. *)
Definition calls_after_end : list Call :=
  [ Start ambient_2 (JsString "StatusActivity")
      (obj [("identifier", str "A1"); ("title", str "Order")])
      (obj [("status", str "packed")]);
    Update (JsString (uuidString (fresh_uuid ambient_2)))
      (obj [("status", str "shipped")]);
    GetAll ].

Lemma ended_id_cannot_be_used_again_witness :
  isSupported iPhone_16_1 = true ∧
  Forall (λ c, ¬ hands_out (activityId info_1) c) calls_after_end ∧
  fst (endActivity iPhone_16_1 (JsString (activityId info_1)) None one_counter)
  = Ok tt ∧
  let st' := run iPhone_16_1 calls_after_end
               (snd (endActivity iPhone_16_1 (JsString (activityId info_1))
                       None one_counter)) in
  is_Some (activeActivities st' !! uuidString (fresh_uuid ambient_2)) ∧
  updateActivity iPhone_16_1 (JsString (activityId info_1))
    (JsObject (list_to_map [("value", int 5)])) st'
  = (Err (update_error (Thrown (notFound (activityId info_1)))), st') ∧
  endActivity iPhone_16_1 (JsString (activityId info_1)) (Some "immediate") st'
  = (Err (end_error (Thrown (notFound (activityId info_1)))), st').
Proof.
  assert (activityId info_1 ≠ "") as Hne by discriminate.
  assert (Forall (λ c, ¬ hands_out (activityId info_1) c) calls_after_end)
    as Hlater.
  { unfold calls_after_end. repeat constructor; cbn [hands_out]; try tauto.
    vm_compute. discriminate. }
  destruct (ended_id_cannot_be_used_again iPhone_16_1 (activityId info_1) None
              one_counter calls_after_end eq_refl Hne Hlater)
    as [Hupdate Hend].
  split; [reflexivity |]. split; [exact Hlater |].
  split; [vm_compute; reflexivity |].
  split; [vm_compute; eauto |].
  split; [apply Hupdate | apply Hend].
Defined.

(** ** What an update sends *)

(** X7. An update sends the host the parsed payload and nothing else: the
    content of the launched task is built from the payload's fields alone,
    whatever content the handle was created with, so an optional field the
    payload omits is sent as absent, not carried over. *)
Theorem update_sends_the_payload_alone (h : Host) (id : string)
    (content : Dict) (st : ModuleState) :
  isSupported h = true → id ≠ "" →
  (∀ a v, activeActivities st !! id = Some (CounterRef a) →
          field asInt content "value" = Some v →
          updateActivity h (JsString id) (JsObject content) st
          = (Ok tt,
             {| activeActivities := activeActivities st;
                launched :=
                  UpdateCounter a
                    {| CounterActivityAttributes.value := v;
                       CounterActivityAttributes.status :=
                         field asString content "status" |}
                  :: launched st |})) ∧
  (∀ a s, activeActivities st !! id = Some (StatusRef a) →
          field asString content "status" = Some s →
          updateActivity h (JsString id) (JsObject content) st
          = (Ok tt,
             {| activeActivities := activeActivities st;
                launched :=
                  UpdateStatus a
                    {| StatusActivityAttributes.status := s;
                       StatusActivityAttributes.progress :=
                         field asInt content "progress";
                       StatusActivityAttributes.details :=
                         field asString content "details";
                       StatusActivityAttributes.timestamp :=
                         field asDouble content "timestamp" |}
                  :: launched st |})) ∧
  (∀ a c, activeActivities st !! id = Some (ProgressRef a) →
          field asInt content "current" = Some c →
          updateActivity h (JsString id) (JsObject content) st
          = (Ok tt,
             {| activeActivities := activeActivities st;
                launched :=
                  UpdateProgress a
                    {| ProgressActivityAttributes.current := c;
                       ProgressActivityAttributes.description :=
                         field asString content "description";
                       ProgressActivityAttributes.percentage :=
                         field asInt content "percentage" |}
                  :: launched st |})).
Proof.
  intros Hs Hne.
  split; [| split]; intros a v Hlook Hfield;
    rewrite updateActivity_supported by done;
    unfold ExpoLiveActivitiesModule.updateExistingActivity;
    rewrite Hlook; cbn [asCounterActivity asStatusActivity asProgressActivity];
    unfold ExpoLiveActivitiesModule.parseCounterContent,
      ExpoLiveActivitiesModule.parseStatusContent,
      ExpoLiveActivitiesModule.parseProgressContent;
    rewrite Hfield; reflexivity.
Qed.

(** The counter of the sample state after an update that set a status. *)
Definition one_counter_with_status : ModuleState :=
  snd (updateActivity iPhone_16_1 (JsString (activityId info_1))
         (obj [("value", int 9); ("status", str "running")]) one_counter).

Lemma update_sends_the_payload_alone_witness :
  ∃ a, activeActivities one_counter_with_status !! activityId info_1
       = Some (CounterRef a) ∧
       updateActivity iPhone_16_1 (JsString (activityId info_1))
         (JsObject (list_to_map [("value", int 8)])) one_counter_with_status
       = (Ok tt,
          {| activeActivities := activeActivities one_counter_with_status;
             launched :=
               UpdateCounter a
                 {| CounterActivityAttributes.value := 8;
                    CounterActivityAttributes.status := None |}
               :: launched one_counter_with_status |}).
Proof.
  assert (activityId info_1 ≠ "") as Hne by discriminate.
  assert (activeActivities one_counter_with_status !! activityId info_1
          = Some counter_1) as Hlook by (vm_compute; reflexivity).
  eexists. split; [exact Hlook |].
  exact (proj1 (update_sends_the_payload_alone iPhone_16_1 (activityId info_1)
                  (list_to_map [("value", int 8)]) one_counter_with_status
                  eq_refl Hne) _ 8%Z Hlook eq_refl).
Defined.

(** ** Validation in update and end *)

(** X8. [updateActivity] and [endActivity] check support first and the id
    second, before the bridge is called: on an unsupported host they fail
    with the unsupported error, and on a supported host an id that is the
    empty string or not a string fails with the invalid-argument error.
    In each case the state is returned as it was, whatever the payload or
    policy. *)
Theorem update_and_end_validate_first (h : Host) (id : JsValue)
    (st : ModuleState) :
  (isSupported h = false →
   ∀ content policy,
     updateActivity h id content st = (Err (Error unsupported_message), st) ∧
     endActivity h id policy st = (Err (Error unsupported_message), st)) ∧
  (isSupported h = true →
   id = JsString "" ∨ typeof_string id = false →
   ∀ content policy,
     updateActivity h id content st
     = (Err (Error "activityId must be a non-empty string"), st) ∧
     endActivity h id policy st
     = (Err (Error "activityId must be a non-empty string"), st)).
Proof.
  split.
  - intros Hs content policy. unfold updateActivity, endActivity.
    by rewrite Hs.
  - intros Hs Hbad content policy. unfold updateActivity, endActivity.
    rewrite Hs. cbn [negb].
    destruct Hbad as [-> | Hty]; [done |].
    rewrite Hty. cbn [negb]. by rewrite orb_true_r.
Qed.

Lemma update_and_end_validate_first_witness :
  isSupported android = false ∧
  updateActivity android (JsString (activityId info_1))
    (obj [("value", int 1)]) initial
  = (Err (Error unsupported_message), initial) ∧
  isSupported iPhone_16_1 = true ∧
  endActivity iPhone_16_1 (JsNumber (NumInt 42)) (Some "immediate") one_counter
  = (Err (Error "activityId must be a non-empty string"), one_counter) ∧
  endActivity iPhone_16_1 (JsString "") None one_counter
  = (Err (Error "activityId must be a non-empty string"), one_counter).
Proof.
  split; [reflexivity |].
  split; [apply (proj1 (update_and_end_validate_first android
                          (JsString (activityId info_1)) initial)
                   eq_refl (obj [("value", int 1)]) None) |].
  split; [reflexivity |].
  split.
  - apply (proj2 (update_and_end_validate_first iPhone_16_1
                    (JsNumber (NumInt 42)) one_counter)
             eq_refl (or_intror eq_refl) JsNull).
  - apply (proj2 (update_and_end_validate_first iPhone_16_1 (JsString "")
                    one_counter)
             eq_refl (or_introl eq_refl) JsNull).
Defined.

(** ** Listing the registry *)

(** X9. [getAllActivities] always succeeds and leaves the state alone.  The
    list it returns has no duplicates; on a supported host it holds
    exactly the keys of the registry, as many as the registry has
    entries, and on an unsupported host it is empty. *)
Theorem getAllActivities_lists_each_id_once (h : Host) (st : ModuleState) :
  ∃ ids, getAllActivities h st = (Ok ids, st) ∧ NoDup ids ∧
         (isSupported h = true →
          length ids = size (activeActivities st) ∧
          ∀ id, id ∈ ids ↔ is_Some (activeActivities st !! id)) ∧
         (isSupported h = false → ids = []).
Proof.
  destruct (isSupported h) eqn:Hs.
  - exists (map fst (map_to_list (activeActivities st))).
    split; [by apply getAllActivities_supported |].
    split; [apply NoDup_fst_map_to_list |]. split; [| done].
    intros _. split; [| intros id; apply elem_of_keys].
    by rewrite length_map, length_map_to_list.
  - exists []. split; [by apply getAllActivities_unsupported |].
    split; [constructor |]. split; [done | done].
Qed.

Lemma getAllActivities_lists_each_id_once_witness :
  isSupported iPhone_16_1 = true ∧
  ∃ ids, getAllActivities iPhone_16_1 one_counter = (Ok ids, one_counter) ∧
         NoDup ids ∧ length ids = 1 ∧ activityId info_1 ∈ ids.
Proof.
  split; [reflexivity |].
  destruct (getAllActivities_lists_each_id_once iPhone_16_1 one_counter)
    as (ids & Hrun & Hnodup & Hkeys & _).
  destruct (Hkeys eq_refl) as [Hlen Hin].
  exists ids. split; [exact Hrun |]. split; [exact Hnodup |].
  split; [rewrite Hlen; vm_compute; reflexivity |].
  apply Hin. rewrite one_counter_lookup. eauto.
Defined.

(** ** The facade on an unsupported host *)

(** X10. On a host the facade does not support, no call reaches the registry:
    the state after any call is the state before, start, update and end
    fail with the unsupported error, [getAllActivities] returns the empty
    list and [endAllActivities] returns normally. *)
Theorem unsupported_host_is_inert (h : Host) (c : Call) (st : ModuleState) :
  isSupported h = false →
  perform h c st
  = (match c with
     | Start _ _ _ _ | Update _ _ | End _ _ => Err (Error unsupported_message)
     | GetAll => Ok (Ids [])
     | EndAll _ => Ok Done
     end, st).
Proof.
  intros Hs.
  destruct c; unfold perform, startActivity, updateActivity, endActivity,
    getAllActivities, endAllActivities; unfold_monad; by rewrite Hs.
Qed.

Lemma unsupported_host_is_inert_witness :
  isSupported android = false ∧
  perform android start_1 initial = (Err (Error unsupported_message), initial) ∧
  perform android (EndAll (Some "immediate")) one_counter
  = (Ok Done, one_counter).
Proof.
  split; [reflexivity |].
  split; apply unsupported_host_is_inert; reflexivity.
Defined.

(** ** Error messages *)

(** X11. The message of a bridge error determines the error: two errors with
    the same description are the same case with the same payload.  So the
    message that reaches the caller loses nothing of the cause. *)
Theorem errorDescription_injective (e1 e2 : LiveActivityError) :
  errorDescription e1 = errorDescription e2 → e1 = e2.
Proof.
  destruct e1, e2; cbn; intros H; try discriminate H; try reflexivity;
    by simplify_eq/=.
Qed.

Lemma errorDescription_injective_witness :
  errorDescription (notFound ("A" ++ "1")) = errorDescription (notFound "A1") ∧
  notFound ("A" ++ "1") = notFound "A1" ∧
  errorDescription (invalidContent "x") ≠ errorDescription (invalidAttributes "x").
Proof.
  split; [reflexivity |].
  split; [apply errorDescription_injective; reflexivity |].
  intros H. apply errorDescription_injective in H. discriminate H.
Defined.

(** ** The errors the bridge lets out *)

(** The id and the answer of a start, as the bridge builds them. *)
Definition started_info (amb : Ambient) (type : string) : ActivityInfo :=
  {| activityId := uuidString (fresh_uuid amb);
     activityType := type;
     startTime := now amb |}.

(** X12. The functions the bridge exports throw the unsupported error
    exactly when iOS 16.1 is not available, and then leave the state
    alone.  On a host with the capability each of them fails exactly when
    its helper fails, and then with its own wrapper around the
    description of the helper's error: no inner error escapes as it is.
    Through the facade the bridge's unsupported error is never seen: the
    facade's own support check comes first. *)
Theorem bridge_errors_are_wrapped (h : Host) (st : ModuleState) :
  (∀ amb type attrs content,
     ExpoLiveActivitiesModule.startActivity h amb type attrs content st
     = if available h 16 1 then
         match ExpoLiveActivitiesModule.createActivity amb
                 (uuidString (fresh_uuid amb)) type attrs content st with
         | (Ok _, st') => (Ok (started_info amb type), st')
         | (Err inner, st') =>
             (Err (startFailed (localizedDescription inner)), st')
         end
       else (Err unsupported, st)) ∧
  (∀ id content,
     ExpoLiveActivitiesModule.updateActivity h id content st
     = if available h 16 1 then
         match ExpoLiveActivitiesModule.updateExistingActivity id content st
         with
         | (Ok _, st') => (Ok tt, st')
         | (Err inner, st') =>
             (Err (updateFailed (localizedDescription inner)), st')
         end
       else (Err unsupported, st)) ∧
  (∀ id policy,
     ExpoLiveActivitiesModule.endActivity h id policy st
     = if available h 16 1 then
         match ExpoLiveActivitiesModule.endExistingActivity id
                 (ExpoLiveActivitiesModule.parseDismissalPolicy h policy) st
         with
         | (Ok _, st') => (Ok tt, st')
         | (Err inner, st') =>
             (Err (endFailed (localizedDescription inner)), st')
         end
       else (Err unsupported, st)) ∧
  (∀ amb type attrs content,
     fst (ExpoLiveActivitiesModule.startActivity h amb type attrs content st)
     = Err unsupported ↔ available h 16 1 = false) ∧
  (∀ id content,
     fst (ExpoLiveActivitiesModule.updateActivity h id content st)
     = Err unsupported ↔ available h 16 1 = false) ∧
  (∀ id policy,
     fst (ExpoLiveActivitiesModule.endActivity h id policy st)
     = Err unsupported ↔ available h 16 1 = false) ∧
  (∀ amb type attrs content e,
     fst (ExpoLiveActivitiesModule.startActivity h amb type attrs content st)
     = Err e →
     if available h 16 1 then ∃ message, e = startFailed message
     else e = unsupported) ∧
  (∀ id content e,
     fst (ExpoLiveActivitiesModule.updateActivity h id content st) = Err e →
     if available h 16 1 then ∃ message, e = updateFailed message
     else e = unsupported) ∧
  (∀ id policy e,
     fst (ExpoLiveActivitiesModule.endActivity h id policy st) = Err e →
     if available h 16 1 then ∃ message, e = endFailed message
     else e = unsupported) ∧
  (∀ amb type attributes contentState prefix,
     fst (startActivity h amb type attributes contentState st)
     ≠ Err (ErrorOfNative prefix (NativeError unsupported))) ∧
  (∀ id contentState prefix,
     fst (updateActivity h id contentState st)
     ≠ Err (ErrorOfNative prefix (NativeError unsupported))) ∧
  (∀ id policy prefix,
     fst (endActivity h id policy st)
     ≠ Err (ErrorOfNative prefix (NativeError unsupported))).
Proof.
  assert (∀ amb type attrs content,
            ExpoLiveActivitiesModule.startActivity h amb type attrs content st
            = if available h 16 1 then
                match ExpoLiveActivitiesModule.createActivity amb
                        (uuidString (fresh_uuid amb)) type attrs content st with
                | (Ok _, st') => (Ok (started_info amb type), st')
                | (Err inner, st') =>
                    (Err (startFailed (localizedDescription inner)), st')
                end
              else (Err unsupported, st)) as Estart.
  { intros amb type attrs content.
    unfold ExpoLiveActivitiesModule.startActivity, started_info.
    destruct (available h 16 1); cbn [negb]; unfold_monad; [| done].
    by destruct (ExpoLiveActivitiesModule.createActivity _ _ _ _ _ _)
      as [[[]|e'] st']. }
  assert (∀ id content,
            ExpoLiveActivitiesModule.updateActivity h id content st
            = if available h 16 1 then
                match ExpoLiveActivitiesModule.updateExistingActivity id
                        content st with
                | (Ok _, st') => (Ok tt, st')
                | (Err inner, st') =>
                    (Err (updateFailed (localizedDescription inner)), st')
                end
              else (Err unsupported, st)) as Eupdate.
  { intros id content. unfold ExpoLiveActivitiesModule.updateActivity.
    destruct (available h 16 1); cbn [negb]; unfold_monad; [| done].
    by destruct (ExpoLiveActivitiesModule.updateExistingActivity _ _ _)
      as [[[]|e'] st']. }
  assert (∀ id policy,
            ExpoLiveActivitiesModule.endActivity h id policy st
            = if available h 16 1 then
                match ExpoLiveActivitiesModule.endExistingActivity id
                        (ExpoLiveActivitiesModule.parseDismissalPolicy h policy)
                        st with
                | (Ok _, st') => (Ok tt, st')
                | (Err inner, st') =>
                    (Err (endFailed (localizedDescription inner)), st')
                end
              else (Err unsupported, st)) as Eend.
  { intros id policy. unfold ExpoLiveActivitiesModule.endActivity.
    destruct (available h 16 1); cbn [negb]; unfold_monad; [| done].
    by destruct (ExpoLiveActivitiesModule.endExistingActivity _ _ _)
      as [[[]|e'] st']. }
  assert (∀ amb type attrs content e,
            fst (ExpoLiveActivitiesModule.startActivity h amb type attrs
                   content st) = Err e →
            if available h 16 1 then ∃ message, e = startFailed message
            else e = unsupported) as Hstart.
  { intros amb type attrs content e. rewrite Estart.
    destruct (available h 16 1); [| by intros [= <-]].
    destruct (ExpoLiveActivitiesModule.createActivity _ _ _ _ _ _)
      as [[[]|e'] st']; cbn; intros [= <-]; eauto. }
  assert (∀ id content e,
            fst (ExpoLiveActivitiesModule.updateActivity h id content st)
            = Err e →
            if available h 16 1 then ∃ message, e = updateFailed message
            else e = unsupported) as Hupdate.
  { intros id content e. rewrite Eupdate.
    destruct (available h 16 1); [| by intros [= <-]].
    destruct (ExpoLiveActivitiesModule.updateExistingActivity _ _ _)
      as [[[]|e'] st']; cbn; intros [= <-]; eauto. }
  assert (∀ id policy e,
            fst (ExpoLiveActivitiesModule.endActivity h id policy st) = Err e →
            if available h 16 1 then ∃ message, e = endFailed message
            else e = unsupported) as Hend.
  { intros id policy e. rewrite Eend.
    destruct (available h 16 1); [| by intros [= <-]].
    destruct (ExpoLiveActivitiesModule.endExistingActivity _ _ _)
      as [[[]|e'] st']; cbn; intros [= <-]; eauto. }
  split; [exact Estart |]. split; [exact Eupdate |]. split; [exact Eend |].
  split; [| split; [| split]].
  - intros amb type attrs content. split.
    + intros H. apply Hstart in H. destruct (available h 16 1); [| done].
      by destruct H as [message [=]].
    + intros Hav. by rewrite Estart, Hav.
  - intros id content. split.
    + intros H. apply Hupdate in H. destruct (available h 16 1); [| done].
      by destruct H as [message [=]].
    + intros Hav. by rewrite Eupdate, Hav.
  - intros id policy. split.
    + intros H. apply Hend in H. destruct (available h 16 1); [| done].
      by destruct H as [message [=]].
    + intros Hav. by rewrite Eend, Hav.
  - split; [exact Hstart |]. split; [exact Hupdate |]. split; [exact Hend |].
    split; [| split].
    + intros amb type attributes contentState prefix.
      unfold startActivity.
      destruct (isSupported h) eqn:Hs; cbn [negb]; [| discriminate].
      destruct (negb (truthy type) || negb (typeof_string type));
        [discriminate |].
      destruct (toString type) as [s|],
        (toDict (js_or attributes (JsObject ∅))) as [a|],
        (toDict (js_or contentState (JsObject ∅))) as [c|];
        unfold_monad; try discriminate.
      specialize (Hstart amb s a c).
      rewrite (isSupported_available _ Hs) in Hstart.
      destruct (ExpoLiveActivitiesModule.startActivity h amb s a c st)
        as [[info|e] st']; cbn in *; [discriminate |].
      destruct (Hstart e eq_refl) as [message ->]. discriminate.
    + intros id contentState prefix. unfold updateActivity.
      destruct (isSupported h) eqn:Hs; cbn [negb]; [| discriminate].
      destruct (negb (truthy id) || negb (typeof_string id)); [discriminate |].
      destruct (toString id) as [s|],
        (toDict (js_or contentState (JsObject ∅))) as [c|];
        unfold_monad; try discriminate.
      specialize (Hupdate s c).
      rewrite (isSupported_available _ Hs) in Hupdate.
      destruct (ExpoLiveActivitiesModule.updateActivity h s c st)
        as [[[]|e] st']; cbn in *; [discriminate |].
      destruct (Hupdate e eq_refl) as [message ->]. discriminate.
    + intros id policy prefix. unfold endActivity.
      destruct (isSupported h) eqn:Hs; cbn [negb]; [| discriminate].
      destruct (negb (truthy id) || negb (typeof_string id)); [discriminate |].
      destruct (toString id) as [s|]; unfold_monad; try discriminate.
      specialize (Hend s (or_default policy)).
      rewrite (isSupported_available _ Hs) in Hend.
      destruct (ExpoLiveActivitiesModule.endActivity h s (or_default policy) st)
        as [[[]|e] st']; cbn in *; [discriminate |].
      destruct (Hend e eq_refl) as [message ->]. discriminate.
Qed.

Lemma bridge_errors_are_wrapped_witness :
  available iPhone_16_1 16 1 = true ∧ available android 16 1 = false ∧
  ExpoLiveActivitiesModule.updateActivity iPhone_16_1 "no-such-id" ∅
    one_counter
  = (Err (updateFailed "Activity not found: no-such-id"), one_counter) ∧
  ExpoLiveActivitiesModule.startActivity iPhone_16_1 ambient_2
    "StatusActivity" (list_to_map [("title", str "Order")]) ∅ one_counter
  = (Err (startFailed
            "Invalid attributes: Missing 'identifier' or 'title' for StatusActivity"),
     one_counter) ∧
  fst (ExpoLiveActivitiesModule.endActivity android "no-such-id" "default"
         initial) = Err unsupported.
Proof.
  destruct (bridge_errors_are_wrapped iPhone_16_1 one_counter)
    as (Estart & Eupdate & _).
  split; [reflexivity |]. split; [reflexivity |].
  split; [rewrite Eupdate; vm_compute; reflexivity |].
  split; [rewrite Estart; vm_compute; reflexivity |].
  apply (proj1 (proj2 (proj2 (proj2 (proj2 (proj2
           (bridge_errors_are_wrapped android initial))))))).
  reflexivity.
Defined.

(** ** Independence of ids *)

(** X13. A call about one id leaves every other entry of the registry as it
    is: a start touches only the id it generates, an update touches no
    entry at all, and an end touches only the id it is given. *)
Theorem other_entries_are_untouched (h : Host) (st : ModuleState)
    (other : string) :
  (∀ amb type attributes contentState,
     uuidString (fresh_uuid amb) ≠ other →
     activeActivities
       (snd (startActivity h amb type attributes contentState st)) !! other
     = activeActivities st !! other) ∧
  (∀ id contentState,
     activeActivities (snd (updateActivity h id contentState st))
     = activeActivities st) ∧
  (∀ id policy,
     id ≠ JsString other →
     activeActivities (snd (endActivity h id policy st)) !! other
     = activeActivities st !! other).
Proof.
  split; [| split].
  - intros amb type attributes contentState Hne.
    destruct (startActivity h amb type attributes contentState st)
      as [r st'] eqn:Hrun.
    apply startActivity_effect in Hrun
      as [(e & -> & ->) | (_ & k & o & _ & _ & _ & Hreg & _)]; cbn [snd];
      [done |].
    rewrite Hreg. by apply lookup_insert_ne.
  - intros id contentState.
    destruct (updateActivity h id contentState st) as [r st'] eqn:Hrun.
    by apply updateActivity_effect in Hrun as [Hreg _].
  - intros id policy Hne.
    destruct (endActivity h id policy st) as [r st'] eqn:Hrun.
    apply endActivity_effect in Hrun
      as [(e & -> & -> & _) | (_ & _ & s & o & -> & _ & _ & Hreg & _)];
      cbn [snd]; [done |].
    rewrite Hreg. apply lookup_delete_ne. congruence.
Qed.

(** The sample state with a second, status activity started. *)
Definition two_activities : ModuleState :=
  snd (startActivity iPhone_16_1 ambient_2 (JsString "StatusActivity")
         (obj [("identifier", str "A1"); ("title", str "Order")])
         (obj [("status", str "packed")]) one_counter).

Lemma other_entries_are_untouched_witness :
  uuidString (fresh_uuid ambient_2) ≠ activityId info_1 ∧
  activeActivities two_activities !! activityId info_1 = Some counter_1 ∧
  JsString (uuidString (fresh_uuid ambient_2)) ≠ JsString (activityId info_1) ∧
  activeActivities
    (snd (endActivity iPhone_16_1 (JsString (uuidString (fresh_uuid ambient_2)))
            (Some "immediate") two_activities)) !! activityId info_1
  = Some counter_1.
Proof.
  assert (uuidString (fresh_uuid ambient_2) ≠ activityId info_1) as Hne
      by (vm_compute; discriminate).
  assert (JsString (uuidString (fresh_uuid ambient_2))
          ≠ JsString (activityId info_1)) as Hne' by congruence.
  assert (activeActivities two_activities !! activityId info_1
          = Some counter_1) as Hkept.
  { unfold two_activities.
    rewrite (proj1 (other_entries_are_untouched iPhone_16_1 one_counter
                      (activityId info_1)) ambient_2 _ _ _ Hne).
    exact one_counter_lookup. }
  split; [exact Hne |]. split; [exact Hkept |]. split; [exact Hne' |].
  rewrite (proj2 (proj2 (other_entries_are_untouched iPhone_16_1
                           two_activities (activityId info_1)))
             _ (Some "immediate") Hne').
  exact Hkept.
Defined.

(** ** The teardown requests of [endAllActivities] *)

Lemma end_each_launched h policy (entries : list (string * AnyObject)) st :
  isSupported h = true → NoDup (map fst entries) →
  (∀ id o, (id, o) ∈ entries →
           id ≠ "" ∧ activeActivities st !! id = Some o) →
  launched (snd (end_each h policy (map fst entries) st))
  = (rev (map (λ entry, ExpoLiveActivitiesModule.endTask (snd entry)
                          (ExpoLiveActivitiesModule.parseDismissalPolicy h policy))
            entries)
     ++ launched st)%list.
Proof.
  intros Hs. unfold end_each. revert st.
  induction entries as [|[id o] entries IH]; intros st Hnd Hall; [done |].
  cbn [map fst snd Promise_all rev] in *.
  apply NoDup_cons in Hnd as [Hnotin Hnd].
  destruct (Hall id o) as [Hne Hlook]; [set_solver |].
  rewrite endActivity_supported by done. cbn [or_default].
  rewrite (endExistingActivity_found _ _ _ _ Hlook).
  match goal with |- context [Promise_all ?cs ?s] =>
    specialize (IH s Hnd); destruct (Promise_all cs s) as [rs st''] end.
  cbn [snd launched activeActivities] in *.
  rewrite IH, <- app_assoc; [done |].
  intros id' o' Hin. destruct (Hall id' o') as [Hne' Hlook']; [set_solver |].
  split; [done |]. rewrite lookup_delete_ne; [done |].
  intros ->. apply Hnotin. apply list_elem_of_fmap. by exists (id', o').
Qed.

(** X14. On a supported host, in any state reached through the API,
    [endAllActivities] launches one teardown task per registered activity
    and nothing else: each task is the end of that entry's own handle,
    with the one policy the call was given, launched in the order in
    which the ids are listed. *)
Theorem endAllActivities_requests_one_teardown_each (h : Host)
    (policy : option string) (st : ModuleState) :
  isSupported h = true → reachable h st →
  launched (snd (endAllActivities h policy st))
  = (rev (map (λ entry,
                 ExpoLiveActivitiesModule.endTask (snd entry)
                   (ExpoLiveActivitiesModule.parseDismissalPolicy h
                      (or_default policy)))
            (map_to_list (activeActivities st)))
     ++ launched st)%list.
Proof.
  intros Hs Hreach. apply reachable_wf in Hreach as Hwf.
  rewrite endAllActivities_supported by done.
  pose proof (end_each_launched h (or_default policy)
                (map_to_list (activeActivities st)) st Hs
                (NoDup_fst_map_to_list _)) as Hl.
  destruct (end_each _ _ _ _) as [[[]|e] st']; cbn [snd] in *; apply Hl;
    intros id o Hin%elem_of_map_to_list;
    (split; [by eapply wf_nonempty_id | done]).
Qed.

Lemma two_activities_reachable : reachable iPhone_16_1 two_activities.
Proof.
  destruct one_counter_reachable as [log Hlog]. eexists.
  exact (history_cons iPhone_16_1 log one_counter
           (Start ambient_2 (JsString "StatusActivity")
              (obj [("identifier", str "A1"); ("title", str "Order")])
              (obj [("status", str "packed")])) Hlog).
Qed.

Lemma endAllActivities_requests_one_teardown_each_witness :
  isSupported iPhone_16_1 = true ∧
  length (launched (snd (endAllActivities iPhone_16_1 (Some "immediate")
                           two_activities))) = 2 ∧
  Forall (λ t, ∃ o, t = ExpoLiveActivitiesModule.endTask o immediate)
    (launched (snd (endAllActivities iPhone_16_1 (Some "immediate")
                      two_activities))).
Proof.
  split; [reflexivity |].
  rewrite (endAllActivities_requests_one_teardown_each iPhone_16_1
             (Some "immediate") two_activities eq_refl
             two_activities_reachable).
  split; [vm_compute; reflexivity |].
  rewrite app_nil_r. apply Forall_rev, Forall_map, Forall_forall.
  intros [id o] _. by exists o.
Defined.

(** ** Failing calls *)

(** X15. A start, an update or an end that fails leaves the whole state, the
    registry and the launched tasks alike, exactly as it was;
    [getAllActivities] never changes it.  Only [endAllActivities] can
    fail after having changed something. *)
Theorem failed_call_changes_nothing (h : Host) (c : Call) (st : ModuleState)
    (e : JsError) :
  (∀ policy, c ≠ EndAll policy) →
  fst (perform h c st) = Err e →
  snd (perform h c st) = st.
Proof.
  intros Hc. destruct c as [amb ty a cs|id cs|id p| |p];
    unfold perform, bind, ret.
  - destruct (startActivity h amb ty a cs st) as [r st'] eqn:Hrun.
    apply startActivity_effect in Hrun
      as [(e' & -> & ->) | (_ & k & o & _ & _ & -> & _)]; cbn; done.
  - destruct (updateActivity h id cs st) as [r st'] eqn:Hrun.
    apply updateActivity_effect in Hrun
      as [_ [(e' & -> & ->) | (-> & _)]]; cbn; done.
  - destruct (endActivity h id p st) as [r st'] eqn:Hrun.
    apply endActivity_effect in Hrun
      as [(e' & -> & -> & _) | (-> & _)]; cbn; done.
  - destruct (getAllActivities_total h st) as [ids ->]. done.
  - by destruct (Hc p).
Qed.

Lemma failed_call_changes_nothing_witness :
  fst (perform iPhone_16_1
         (Update (JsString (activityId info_1)) (obj [("status", str "s")]))
         one_counter)
  = Err (update_error
           (Thrown (invalidContent "Missing 'value' for CounterActivity"))) ∧
  snd (perform iPhone_16_1
         (Update (JsString (activityId info_1)) (obj [("status", str "s")]))
         one_counter) = one_counter.
Proof.
  assert (fst (perform iPhone_16_1
                 (Update (JsString (activityId info_1))
                    (obj [("status", str "s")])) one_counter)
          = Err (update_error
                   (Thrown (invalidContent
                              "Missing 'value' for CounterActivity")))) as Hrun
      by (vm_compute; reflexivity).
  split; [exact Hrun |].
  refine (failed_call_changes_nothing iPhone_16_1 _ one_counter _ _ Hrun).
  discriminate.
Defined.

(** ** Falsy payloads *)

(** X16. Whatever JavaScript counts as false stands for the empty record, not
    only null and undefined: a start or an update given [false], [0],
    [NaN] or the empty string as a payload behaves as the same call
    given [{}]. *)
Theorem falsy_payload_is_the_empty_record (h : Host) (st : ModuleState)
    (falsy : JsValue) :
  truthy falsy = false →
  (∀ amb type other,
     startActivity h amb type falsy other st
     = startActivity h amb type (JsObject ∅) other st ∧
     startActivity h amb type other falsy st
     = startActivity h amb type other (JsObject ∅) st) ∧
  (∀ id, updateActivity h id falsy st = updateActivity h id (JsObject ∅) st).
Proof.
  intros Hfalsy.
  assert (js_or falsy (JsObject ∅) = JsObject ∅) as Hor
      by (unfold js_or; by rewrite Hfalsy).
  split.
  - intros amb type other. unfold startActivity. rewrite Hor. done.
  - intros id. unfold updateActivity. rewrite Hor. done.
Qed.

Lemma falsy_payload_is_the_empty_record_witness :
  truthy (JsNumber (NumInt 0)) = false ∧ truthy (JsString "") = false ∧
  startActivity iPhone_16_1 ambient_2 (JsString "CounterActivity")
    (obj [("title", str "T")]) (JsNumber (NumInt 0)) one_counter
  = startActivity iPhone_16_1 ambient_2 (JsString "CounterActivity")
      (obj [("title", str "T")]) (JsObject ∅) one_counter ∧
  updateActivity iPhone_16_1 (JsString (activityId info_1)) (JsString "")
    one_counter
  = updateActivity iPhone_16_1 (JsString (activityId info_1)) (JsObject ∅)
      one_counter.
Proof.
  split; [reflexivity |]. split; [reflexivity |]. split.
  - exact (proj2 (proj1 (falsy_payload_is_the_empty_record iPhone_16_1
                           one_counter (JsNumber (NumInt 0)) eq_refl)
                    ambient_2 _ _)).
  - exact (proj2 (falsy_payload_is_the_empty_record iPhone_16_1 one_counter
                    (JsString "") eq_refl) _).
Defined.

(** ** Updates that lack a required field *)

(** X17. Which fields an update must carry is decided by the kind of the
    registered handle, not by the payload: on a supported host an update
    whose payload lacks a required content field of the handle's kind
    fails with that kind's invalid-content error, launches no task and
    changes nothing, even when the payload would be valid content of
    another kind. *)
Theorem update_is_checked_against_the_handle (h : Host) (id : string)
    (o : AnyObject) (k : ActivityKind) (content : Dict) (st : ModuleState) :
  isSupported h = true → id ≠ "" →
  activeActivities st !! id = Some o → typed_as k o →
  has_fields (required_content k) content = false →
  updateActivity h (JsString id) (JsObject content) st
  = (Err (update_error (Thrown (invalidContent (content_message k)))), st).
Proof.
  intros Hs Hne Hlook Hk Hreq.
  rewrite updateActivity_supported by done.
  unfold ExpoLiveActivitiesModule.updateExistingActivity. rewrite Hlook.
  destruct o as [a|a|a|tag], k; cbn in Hk; try (by destruct Hk as [? [=]]);
    cbn [asCounterActivity asStatusActivity asProgressActivity
         required_content has_fields forallb content_message] in *;
    rewrite ?has_typed_field_string, ?has_typed_field_int, ?andb_true_r in Hreq;
    unfold ExpoLiveActivitiesModule.parseCounterContent,
      ExpoLiveActivitiesModule.parseStatusContent,
      ExpoLiveActivitiesModule.parseProgressContent;
    unfold_monad;
    match goal with
    | |- context [field ?c content ?key] =>
        destruct (field c content key)
    end;
    rewrite ?bool_decide_is_Some_Some in Hreq; done.
Qed.

Lemma update_is_checked_against_the_handle_witness :
  has_fields (required_content Status) (list_to_map [("status", str "packed")])
  = true ∧
  updateActivity iPhone_16_1 (JsString (activityId info_1))
    (JsObject (list_to_map [("status", str "packed")])) one_counter
  = (Err (update_error
            (Thrown (invalidContent "Missing 'value' for CounterActivity"))),
     one_counter).
Proof.
  assert (activityId info_1 ≠ "") as Hne by discriminate.
  assert (typed_as Counter counter_1) as Hk by (cbn; eauto).
  split; [vm_compute; reflexivity |].
  refine (update_is_checked_against_the_handle iPhone_16_1 (activityId info_1)
            counter_1 Counter _ one_counter eq_refl Hne one_counter_lookup Hk _).
  vm_compute. reflexivity.
Defined.

(** ** Support *)

(** X18. The facade reports support exactly on iOS, when the probe of the
    native module does not raise and the OS version is 16.1 or later
    (major above 16, or major 16 with minor at least 1); the bridge's own
    [isSupported] is the version test alone.  So whenever the facade
    reports support the bridge's availability guards pass, and a host that
    offers the [after] policy (16.2) passes the 16.1 guard. *)
Theorem isSupported_exactly_from_iOS_16_1 (h : Host) :
  (isSupported h = true ↔
   platform_os h = "ios" ∧ probe_throws h = false ∧
   (16 < fst (os_version h) ∨
    (fst (os_version h) = 16 ∧ 1 ≤ snd (os_version h)))%nat) ∧
  (ExpoLiveActivitiesModule.isSupported h = true ↔
   (16 < fst (os_version h) ∨
    (fst (os_version h) = 16 ∧ 1 ≤ snd (os_version h)))%nat) ∧
  (isSupported h = true → ExpoLiveActivitiesModule.isSupported h = true) ∧
  (available h 16 2 = true → available h 16 1 = true).
Proof.
  assert (available h 16 1 = true ↔
          (16 < fst (os_version h) ∨
           (fst (os_version h) = 16 ∧ 1 ≤ snd (os_version h)))%nat) as Hav.
  { unfold available. destruct (os_version h) as [M m]. cbn [fst snd].
    rewrite orb_true_iff, andb_true_iff, Nat.ltb_lt, Nat.eqb_eq, Nat.leb_le.
    tauto. }
  assert (ExpoLiveActivitiesModule.isSupported h = available h 16 1) as Hnative
      by (unfold ExpoLiveActivitiesModule.isSupported;
          by destruct (available h 16 1)).
  split; [| split; [| split]].
  - rewrite isSupported_true, Hav. tauto.
  - by rewrite Hnative.
  - intros Hs. rewrite Hnative. by apply isSupported_available.
  - unfold available. destruct (os_version h) as [M m].
    rewrite !orb_true_iff, !andb_true_iff, !Nat.ltb_lt, !Nat.eqb_eq,
      !Nat.leb_le. lia.
Qed.

Lemma isSupported_exactly_from_iOS_16_1_witness :
  isSupported iPhone_17_0 = true ∧
  ExpoLiveActivitiesModule.isSupported iPhone_17_0 = true ∧
  available iPhone_17_0 16 2 = true ∧ available iPhone_17_0 16 1 = true ∧
  isSupported android = false.
Proof.
  destruct (isSupported_exactly_from_iOS_16_1 iPhone_17_0)
    as (Hfacade & _ & Hbridge & Hafter).
  assert (isSupported iPhone_17_0 = true) as Hs.
  { apply Hfacade. cbn. repeat split; lia. }
  split; [exact Hs |]. split; [exact (Hbridge Hs) |].
  split; [reflexivity |]. split; [exact (Hafter eq_refl) |].
  destruct (isSupported android) eqn:Hand; [| reflexivity].
  apply (proj1 (isSupported_exactly_from_iOS_16_1 android)) in Hand
    as (Hos & _). discriminate Hos.
Defined.
